(** * AIND-Recognizer: model selection and recognition

    A shallow embedding of [my_model_selectors.py] and [my_recognizer.py].

    Python values are modelled as follows.
    - [float] is IEEE binary64, i.e. Rocq's primitive [float]; [a > b] in
      Python is [b <? a] here, and every comparison with [nan] is false.
    - [int] is [Z]; [range(a, b + 1)] is a list of [Z].
    - an observation matrix is a list of rows, each row a list of floats;
      a word's sequences are a list of such matrices.
    - a [dict] is an association list in insertion order with unique keys.
    - [try]/[except] is an explicit [result] type; the selector object is
      a record passed in and out of every method that assigns a field.
    - the hidden Markov model library, the fold splitter and [np.log] are
      external: they are the fields of the class [Library], and every
      definition and theorem is parametric in it.
    Output written with [print] is not modelled. *)

From Stdlib Require Import ZArith List Lia Bool String.
From Stdlib Require Import Floats.
Import ListNotations.

Open Scope Z_scope.

(* ================================================================== *)
(** ** Python floats *)

Module PyFloat.

(** [float(z)] for a Python [int]: rounding to the nearest binary64. *)
Definition float_of_Z (z : Z) : float :=
  SF2Prim (binary_normalize prec emax z 0 false).

(** [a > b] on Python floats. *)
Definition gtb (a b : float) : bool := (b <? a)%float.

(** Position of a number that is not [nan] on the extended real line, as a
    triple compared lexicographically: sign class, then exponent, then
    mantissa (both negated below zero). *)
Definition SFkey (x : spec_float) : Z * Z * Z :=
  match x with
  | S754_nan => (0, 0, 0)
  | S754_zero _ => (0, 0, 0)
  | S754_infinity true => (-2, 0, 0)
  | S754_infinity false => (2, 0, 0)
  | S754_finite true m e => (-1, - e, - Zpos m)
  | S754_finite false m e => (1, e, Zpos m)
  end.

Definition lex3 (p q : Z * Z * Z) : comparison :=
  let '(a1, b1, c1) := p in
  let '(a2, b2, c2) := q in
  match a1 ?= a2 with
  | Eq => match b1 ?= b2 with
          | Eq => c1 ?= c2
          | c => c
          end
  | c => c
  end.

Definition lex3_le (p q : Z * Z * Z) : Prop := lex3 p q <> Gt.
Definition lex3_lt (p q : Z * Z * Z) : Prop := lex3 p q = Lt.

Definition not_nan (x : float) : Prop := is_nan x = false.

Definition key (x : float) : Z * Z * Z := SFkey (Prim2SF x).

End PyFloat.

(* ================================================================== *)
(** ** Python control flow and containers *)

Module Py.

(** The exceptions that occur in the two files.  All are subclasses of
    [Exception], so [except:] and [except Exception:] catch each of them;
    [LibraryError] stands for whatever an external library call raises. *)
Inductive exn : Type :=
| AttributeError        (* method call on [None] *)
| IndexError            (* list index out of range *)
| KeyError              (* missing dictionary key *)
| ValueError            (* [max] of an empty sequence, bad split *)
| UnboundLocalError     (* local variable read before assignment *)
| NotImplementedError
| LibraryError (msg : string).

Inductive result (A : Type) : Type :=
| Ok (a : A)
| Raise (e : exn).
Arguments Ok {A} a.
Arguments Raise {A} e.

Definition bind {A B} (r : result A) (k : A -> result B) : result B :=
  match r with
  | Ok a => k a
  | Raise e => Raise e
  end.

(** [try: body  except: handler] *)
Definition try_except {A} (body : result A) (handler : exn -> result A) : result A :=
  match body with
  | Ok a => Ok a
  | Raise e => handler e
  end.

Declare Scope py_scope.
Delimit Scope py_scope with py.
Notation "x <- c ;; k" := (bind c (fun x => k))
  (at level 61, c at next level, right associativity) : py_scope.
Notation "' pat <- c ;; k" := (bind c (fun x => match x with pat => k end))
  (at level 61, pat pattern, c at next level, right associativity) : py_scope.

(** [len(l)] *)
Definition len {A} (l : list A) : Z := Z.of_nat (List.length l).

(** [l[i]] for a non-negative index. *)
Definition getitem {A} (l : list A) (i : nat) : result A :=
  match nth_error l i with
  | Some a => Ok a
  | None => Raise IndexError
  end.

(** [range(a, b)] *)
Definition range (a b : Z) : list Z :=
  map (fun i => a + Z.of_nat i) (seq 0 (Z.to_nat (b - a))).

(** [[f(x) for x in l]], stopping at the first exception. *)
Fixpoint list_comp {A B} (f : A -> result B) (l : list A) : result (list B) :=
  match l with
  | [] => Ok []
  | x :: r => (y <- f x ;; ys <- list_comp f r ;; Ok (y :: ys))%py
  end.

(** A [dict] with string keys: bindings in insertion order. *)
Definition dict (V : Type) : Type := list (string * V).

Definition dict_keys {V} (d : dict V) : list string := map fst d.

Fixpoint dict_get {V} (d : dict V) (k : string) : option V :=
  match d with
  | [] => None
  | (k', v) :: r => if String.eqb k k' then Some v else dict_get r k
  end.

(** [d[k]] *)
Definition dict_getitem {V} (d : dict V) (k : string) : result V :=
  match dict_get d k with
  | Some v => Ok v
  | None => Raise KeyError
  end.

(** [d[k] = v]: a key already present keeps its place. *)
Fixpoint dict_set {V} (d : dict V) (k : string) (v : V) : dict V :=
  match d with
  | [] => [(k, v)]
  | (k', v') :: r =>
      if String.eqb k k' then (k, v) :: r else (k', v') :: dict_set r k v
  end.

(** A well-formed [dict] has no repeated key. *)
Definition dict_wf {V} (d : dict V) : Prop := NoDup (dict_keys d).

(** [max(iterable, key=key)]: the first item is the running maximum, and a
    later item replaces it only when its key is [>] the running key. *)
Fixpoint max_loop {A} (key : A -> result float) (best : A) (best_key : float)
         (l : list A) : result A :=
  match l with
  | [] => Ok best
  | x :: r =>
      (k <- key x ;;
       if PyFloat.gtb k best_key then max_loop key x k r
       else max_loop key best best_key r)%py
  end.

Definition py_max {A} (key : A -> result float) (l : list A) : result A :=
  match l with
  | [] => Raise ValueError
  | x :: r => (k <- key x ;; max_loop key x k r)%py
  end.

(** [np.mean(l)] of a list of floats: the sum from left to right divided
    by the count; [nan] for the empty list. *)
Definition np_mean (l : list float) : float :=
  (fold_left PrimFloat.add l 0 / PyFloat.float_of_Z (len l))%float.

End Py.

(* ================================================================== *)
(** ** External collaborators *)

Module Ext.
Import Py.

(** Observation matrix: one row per frame, each row a feature vector. *)
Definition Xmat : Type := list (list float).

(** [hmmlearn] and [sklearn], as used by the two files.
    - [GaussianHMM_fit n rs X lengths] is
      [GaussianHMM(n_components=n, covariance_type="diag", n_iter=1000,
       random_state=rs, verbose=False).fit(X, lengths)];
    - [score m X lengths] is [m.score(X, lengths)];
    - [KFold_split rs seqs] is the list of (train, test) index pairs that
      [KFold(shuffle=True, random_state=rs).split(seqs)] yields;
    - [np_log] is [np.log]. *)
Class Library : Type := {
  Model : Type;
  GaussianHMM_fit : Z -> Z -> Xmat -> list nat -> result Model;
  score : Model -> Xmat -> list nat -> result float;
  KFold_split : Z -> list Xmat -> result (list (list nat * list nat));
  np_log : float -> float
}.

(** Modelled from the spec: [asl_utils.combine_sequences] is not among the
    sources.  It concatenates the sequences at the given indices into one
    observation matrix, paired with the list of their lengths. *)
Definition combine_sequences (split_index_list : list nat) (sequences : list Xmat)
  : result (Xmat * list nat) :=
  (sequences_fold <- list_comp (getitem sequences) split_index_list ;;
   Ok (List.concat sequences_fold, map (@List.length _) sequences_fold))%py.

(** Modelled from the spec: [asl_data.SinglesData] is not among the
    sources.  A test set is the sequence of its items, each a pair of
    observations and lengths, indexed from 0. *)
Definition SinglesData : Type := list (Xmat * list nat).

Definition get_all_sequences (test_set : SinglesData) : list (Xmat * list nat) :=
  test_set.

Definition get_item_Xlengths (test_set : SinglesData) (word_id : nat)
  : result (Xmat * list nat) :=
  match nth_error test_set word_id with
  | Some item => Ok item
  | None => Raise KeyError
  end.

End Ext.

(* ================================================================== *)
(** ** my_recognizer.py *)

Module Recognizer.
Import Py Ext.
Local Open Scope py_scope.

Section Defs.
Context {L : Library}.

(** One pass of the inner loop over [models.items()]. *)
Definition score_word (sequence : Xmat) (lengths : list nat)
           (world_LogLvalues : dict float) (item : string * Model) : dict float :=
  let '(word, model) := item in
  match score model sequence lengths with
  | Ok v => dict_set world_LogLvalues word v
  | Raise _ => dict_set world_LogLvalues word neg_infinity
  end.

(** The value [score_word] records for a word: the model's score of the
    item, or negative infinity when scoring fails. *)
Definition recorded (model : Model) (item : Xmat * list nat) : float :=
  match score model (fst item) (snd item) with
  | Ok v => v
  | Raise _ => neg_infinity
  end.

(** The profile of an item as the specification describes it: every word
    of the table, in the table's order, with its recorded value. *)
Definition profile_of (models : dict Model) (item : Xmat * list nat) : dict float :=
  map (fun wm => (fst wm, recorded (snd wm) item)) models.

(** The guess [max] makes from a profile. *)
Definition is_guess (models : dict Model) (item : Xmat * list nat) (g : string) : Prop :=
  py_max (fun x => dict_getitem (profile_of models item) x)
         (dict_keys (profile_of models item)) = Ok g.

(** The body of the outer loop, for one [word_id]. *)
Definition recognize_item (models : dict Model) (test_set : SinglesData)
           (acc : list (dict float) * list string) (word_id : nat)
  : result (list (dict float) * list string) :=
  let '(probabilities, guesses) := acc in
  '(sequence, lengths) <- get_item_Xlengths test_set word_id ;;
  let world_LogLvalues := fold_left (score_word sequence lengths) models [] in
  guess <- py_max (fun x => dict_getitem world_LogLvalues x)
                  (dict_keys world_LogLvalues) ;;
  Ok (probabilities ++ [world_LogLvalues], guesses ++ [guess]).

Fixpoint recognize_loop (models : dict Model) (test_set : SinglesData)
         (word_ids : list nat) (acc : list (dict float) * list string)
  : result (list (dict float) * list string) :=
  match word_ids with
  | [] => Ok acc
  | word_id :: r =>
      acc' <- recognize_item models test_set acc word_id ;;
      recognize_loop models test_set r acc'
  end.

Definition recognize (models : dict Model) (test_set : SinglesData)
  : result (list (dict float) * list string) :=
  recognize_loop models test_set
                 (seq 0 (List.length (get_all_sequences test_set))) ([], []).

End Defs.
End Recognizer.

(* ================================================================== *)
(** ** my_model_selectors.py *)

Module Selectors.
Import Py Ext.

(** The fields of a [ModelSelector] object. *)
Record ModelSelector : Type := mkSelector {
  words : dict (list Xmat);
  hwords : dict (Xmat * list nat);
  sequences : list Xmat;
  X : Xmat;
  lengths : list nat;
  this_word : string;
  n_constant : Z;
  min_n_components : Z;
  max_n_components : Z;
  random_state : Z;
  verbose : bool
}.

(** [self.X, self.lengths = X', lengths'] *)
Definition assign_X_lengths (s : ModelSelector) (X' : Xmat) (lengths' : list nat)
  : ModelSelector :=
  {| words := words s; hwords := hwords s; sequences := sequences s;
     X := X'; lengths := lengths';
     this_word := this_word s; n_constant := n_constant s;
     min_n_components := min_n_components s;
     max_n_components := max_n_components s;
     random_state := random_state s; verbose := verbose s |}.

(** The four subclasses of [ModelSelector]. *)
Inductive Strategy : Type :=
| SelectorConstant
| SelectorBIC
| SelectorDIC
| SelectorCV.

(** Local variables of [SelectorCV.select] that outlive one pass of its
    loops, together with the object itself.  [model] is [None] while the
    variable is unbound; a bound [model] holds a fitted model or Python's
    [None]. *)
Record Frame {L : Library} : Type := mkFrame {
  self : ModelSelector;
  model : option (option Model);
  cv_scores : list float;
  n_state_scores : list (float * option Model)
}.

Section Defs.
Context {L : Library}.
Local Open Scope py_scope.

Definition ModelSelector_init
           (all_word_sequences : dict (list Xmat))
           (all_word_Xlengths : dict (Xmat * list nat))
           (this_word : string)
           (n_constant min_n_components max_n_components random_state : Z)
           (verbose : bool) : result ModelSelector :=
  sequences <- dict_getitem all_word_sequences this_word ;;
  '(X, lengths) <- dict_getitem all_word_Xlengths this_word ;;
  Ok (mkSelector all_word_sequences all_word_Xlengths sequences X lengths
                 this_word n_constant min_n_components max_n_components
                 random_state verbose).

Definition base_model (self : ModelSelector) (num_states : Z)
  : result (option Model) :=
  try_except
    (hmm_model <- GaussianHMM_fit num_states (random_state self)
                                  (X self) (lengths self) ;;
     Ok (Some hmm_model))
    (fun _ => Ok None).

(** [model.score(X, lengths)] where [model] may be [None]. *)
Definition call_score (model : option Model) (X : Xmat) (lengths : list nat)
  : result float :=
  match model with
  | Some m => score m X lengths
  | None => Raise AttributeError
  end.

(** *** SelectorConstant *)

Definition SelectorConstant_select (self : ModelSelector) : result (option Model) :=
  let best_num_components := n_constant self in
  base_model self best_num_components.

(** *** SelectorBIC *)

(** The body of the [try] block for one [n_states]. *)
Definition bic_try (self : ModelSelector) (n_states : Z)
  : result (float * option Model) :=
  model <- base_model self n_states ;;
  logL <- call_score model (X self) (lengths self) ;;
  let N := len (X self) in
  row <- getitem (X self) 0 ;;
  let p := n_states ^ 2 + 2 * len row * n_states - 1 in
  let BIC := (PyFloat.float_of_Z (-2) * logL
              + PyFloat.float_of_Z p * np_log (PyFloat.float_of_Z N))%float in
  Ok (BIC, model).

(** One pass of the loop: [try] the body, skip the candidate on failure. *)
Definition bic_step (self : ModelSelector)
           (n_state_scores : list (float * option Model)) (n_states : Z)
  : list (float * option Model) :=
  match bic_try self n_states with
  | Ok c => n_state_scores ++ [c]
  | Raise _ => n_state_scores
  end.

Definition SelectorBIC_select (self : ModelSelector) : result (option Model) :=
  let n_state_scores :=
    fold_left (bic_step self)
              (range (min_n_components self) (max_n_components self + 1)) [] in
  if len n_state_scores =? 0 then Ok None
  else best <- py_max (fun x => Ok (fst x)) n_state_scores ;; Ok (snd best).

(** *** SelectorDIC *)

Definition SelectorDIC_select (self : ModelSelector) : result (option Model) :=
  Raise NotImplementedError.

(** *** SelectorCV

    [select] assigns [self.X] and [self.lengths] and keeps locals across
    passes of its loops, also when a pass ends in an exception: it runs in
    a state-and-exception monad over [Frame]. *)

Definition M (A : Type) : Type := Frame -> result A * Frame.

Definition ret {A} (a : A) : M A := fun f => (Ok a, f).

Definition mbind {A B} (c : M A) (k : A -> M B) : M B :=
  fun f => match c f with
           | (Ok a, f') => k a f'
           | (Raise e, f') => (Raise e, f')
           end.

Definition lift {A} (r : result A) : M A := fun f => (r, f).

Definition get : M Frame := fun f => (Ok f, f).

Definition try_ {A} (body : M A) (handler : exn -> M A) : M A :=
  fun f => match body f with
           | (Ok a, f') => (Ok a, f')
           | (Raise e, f') => handler e f'
           end.

Fixpoint for_each {A} (l : list A) (body : A -> M unit) : M unit :=
  match l with
  | [] => ret tt
  | x :: r => mbind (body x) (fun _ => for_each r body)
  end.

Definition assign_self_X_lengths (X' : Xmat) (lengths' : list nat) : M unit :=
  fun f => (Ok tt, mkFrame L (assign_X_lengths (self f) X' lengths')
                           (model f) (cv_scores f) (n_state_scores f)).

Definition assign_model (m : option Model) : M unit :=
  fun f => (Ok tt, mkFrame L (self f) (Some m) (cv_scores f) (n_state_scores f)).

Definition read_model : M (option Model) :=
  fun f => match model f with
           | Some m => (Ok m, f)
           | None => (Raise UnboundLocalError, f)
           end.

Definition assign_cv_scores (l : list float) : M unit :=
  fun f => (Ok tt, mkFrame L (self f) (model f) l (n_state_scores f)).

Definition assign_n_state_scores (l : list (float * option Model)) : M unit :=
  fun f => (Ok tt, mkFrame L (self f) (model f) (cv_scores f) l).

Definition append_cv_scores (v : float) : M unit :=
  fun f => (Ok tt, mkFrame L (self f) (model f) (cv_scores f ++ [v])
                           (n_state_scores f)).

Definition append_n_state_scores (c : float * option Model) : M unit :=
  fun f => (Ok tt, mkFrame L (self f) (model f) (cv_scores f)
                           (n_state_scores f ++ [c])).

Declare Scope run_scope.
Delimit Scope run_scope with run.
Notation "x <- c ;; k" := (mbind c (fun x => k))
  (at level 61, c at next level, right associativity) : run_scope.
Notation "' pat <- c ;; k" := (mbind c (fun x => match x with pat => k end))
  (at level 61, pat pattern, c at next level, right associativity) : run_scope.
Notation "c ;; k" := (mbind c (fun _ => k))
  (at level 61, right associativity) : run_scope.

(** The body of the loop over the folds. *)
Definition cv_fold (n_states : Z) (split : list nat * list nat) : M unit :=
  (let '(cv_train_idx, cv_test_idx) := split in
   f <- get ;;
   '(X', lengths') <- lift (combine_sequences cv_train_idx (sequences (self f))) ;;
   assign_self_X_lengths X' lengths' ;;
   f <- get ;;
   '(X_test, lengths_test) <-
      lift (combine_sequences cv_test_idx (sequences (self f))) ;;
   m <- lift (base_model (self f) n_states) ;;
   assign_model m ;;
   v <- lift (call_score m X_test lengths_test) ;;
   append_cv_scores v)%run.

(** The body of the [try] block for one [n_states]. *)
Definition cv_try (split_method : list Xmat -> result (list (list nat * list nat)))
           (n_states : Z) : M unit :=
  (assign_cv_scores [] ;;
   f <- get ;;
   (if len (sequences (self f)) <? 3 then
      m <- lift (base_model (self f) n_states) ;;
      assign_model m ;;
      v <- lift (call_score m (X (self f)) (lengths (self f))) ;;
      append_n_state_scores (v, m)
    else
      splits <- lift (split_method (sequences (self f))) ;;
      for_each splits (cv_fold n_states)) ;;
   f <- get ;;
   m <- read_model ;;
   append_n_state_scores (np_mean (cv_scores f), m))%run.

Definition SelectorCV_run : M (option Model) :=
  (f <- get ;;
   let split_method := KFold_split (random_state (self f)) in
   assign_n_state_scores [] ;;
   for_each (range (min_n_components (self f)) (max_n_components (self f) + 1))
            (fun n_states => try_ (cv_try split_method n_states)
                                  (fun _ => ret tt)) ;;
   f <- get ;;
   if len (n_state_scores f) =? 0 then ret None
   else best <- lift (py_max (fun x => Ok (fst x)) (n_state_scores f)) ;;
        ret (snd best))%run.

(** Calling [select] on the object [s]: the value returned or the
    exception raised, and the object afterwards. *)
Definition SelectorCV_select (s : ModelSelector)
  : result (option Model) * ModelSelector :=
  let '(r, f) := SelectorCV_run (mkFrame L s None [] []) in (r, self f).

(** [select()] on a selector of the given subclass. *)
Definition select (k : Strategy) (s : ModelSelector)
  : result (option Model) * ModelSelector :=
  match k with
  | SelectorConstant => (SelectorConstant_select s, s)
  | SelectorBIC => (SelectorBIC_select s, s)
  | SelectorDIC => (SelectorDIC_select s, s)
  | SelectorCV => SelectorCV_select s
  end.

End Defs.

(** *** The criteria in the words of the specification

    These definitions are not translated from the code: they state what
    each strategy is specified to compute, and the theorems below compare
    the code with them. *)
Section Spec.
Context {L : Library}.

(** Fit an [n]-state model on training data and score it on test data;
    [None] when the fit or the scoring fails. *)
Definition fit_and_score (n rs : Z) (X_train : Xmat) (lengths_train : list nat)
           (X_test : Xmat) (lengths_test : list nat) : option (float * Model) :=
  match GaussianHMM_fit n rs X_train lengths_train with
  | Ok m => match score m X_test lengths_test with
            | Ok v => Some (v, m)
            | Raise _ => None
            end
  | Raise _ => None
  end.

(** BIC = -2 logL + p ln N with p = n^2 + 2 d n - 1. *)
Definition bic_value (n d N : Z) (logL : float) : float :=
  (PyFloat.float_of_Z (-2) * logL
   + PyFloat.float_of_Z (n ^ 2 + 2 * d * n - 1) * np_log (PyFloat.float_of_Z N))%float.

(** The BIC of candidate [n] and its model, when fit and scoring on the
    word's data succeed; [d] is the length of a row, [N] the number of
    rows. *)
Definition bic_quality (s : ModelSelector) (n : Z) : option (float * Model) :=
  match fit_and_score n (random_state s) (X s) (lengths s) (X s) (lengths s) with
  | Some (logL, m) =>
      Some (bic_value n (len (hd [] (X s))) (len (X s)) logL, m)
  | None => None
  end.

(** One fold: train on the train-index sequences, score the held-out
    ones. *)
Definition fold_eval (s : ModelSelector) (n : Z) (split : list nat * list nat)
  : option (float * Model) :=
  match combine_sequences (fst split) (sequences s),
        combine_sequences (snd split) (sequences s) with
  | Ok (X_train, lengths_train), Ok (X_test, lengths_test) =>
      fit_and_score n (random_state s) X_train lengths_train X_test lengths_test
  | _, _ => None
  end.

(** All folds in order; [None] as soon as one fails. *)
Fixpoint all_folds (s : ModelSelector) (n : Z) (splits : list (list nat * list nat))
  : option (list (float * Model)) :=
  match splits with
  | [] => Some []
  | split :: r =>
      match fold_eval s n split with
      | Some vm => match all_folds s n r with
                   | Some l => Some (vm :: l)
                   | None => None
                   end
      | None => None
      end
  end.

(** The cross-validation quality of candidate [n] and the model kept for
    it: below three sequences, one fit and one score on the selector's
    data; otherwise the mean of the held-out scores of the folds and the
    model of the last fold. *)
Definition cv_quality (s : ModelSelector) (n : Z) : option (float * Model) :=
  if len (sequences s) <? 3 then
    fit_and_score n (random_state s) (X s) (lengths s) (X s) (lengths s)
  else
    match KFold_split (random_state s) (sequences s) with
    | Ok splits =>
        match all_folds s n splits with
        | Some ((v0, m0) :: rest) =>
            Some (np_mean (map fst ((v0, m0) :: rest)),
                  List.last (map snd rest) m0)
        | _ => None
        end
    | Raise _ => None
    end.

(** The fold at which the fold loop for [n] stops: the first fold that
    fails, or the last fold when none does. *)
Fixpoint last_evaluated (s : ModelSelector) (n : Z) (split : list nat * list nat)
         (rest : list (list nat * list nat)) : list nat * list nat :=
  match rest with
  | [] => split
  | next :: r =>
      match fold_eval s n split with
      | Some _ => last_evaluated s n next r
      | None => split
      end
  end.

(** What [SelectorCV.select] reads of the object and the corpus. *)
Definition cv_inputs (s : ModelSelector) : list Xmat * Xmat * list nat * Z * Z * Z :=
  (sequences s, X s, lengths s, min_n_components s, max_n_components s,
   random_state s).

(** [s'] is [s] except, possibly, for [X] and [lengths]. *)
Definition same_but_X_lengths (s s' : ModelSelector) : Prop :=
  words s' = words s /\ hwords s' = hwords s /\
  sequences s' = sequences s /\ this_word s' = this_word s /\
  n_constant s' = n_constant s /\
  min_n_components s' = min_n_components s /\
  max_n_components s' = max_n_components s /\
  random_state s' = random_state s /\ verbose s' = verbose s.

(** The entries the loop of [SelectorCV.select] appends for candidate
    [n]: below three sequences the score is followed by the mean of the
    empty list of fold scores. *)
Definition cv_entries (s : ModelSelector) (n : Z) : list (float * option Model) :=
  match cv_quality s n with
  | Some (q, m) =>
      if len (sequences s) <? 3 then [(q, Some m); (np_mean [], Some m)]
      else [(q, Some m)]
  | None => []
  end.

(** The splitter yields no fold at all for a word that is split. *)
Definition no_folds (s : ModelSelector) : Prop :=
  (len (sequences s) <? 3) = false /\
  KFold_split (random_state s) (sequences s) = Ok [].

(** Loop invariant of [SelectorCV.select] started on [s]. *)
Definition cv_invariant (s : ModelSelector) (f : Frame) : Prop :=
  same_but_X_lengths s (self f) /\
  ((len (sequences s) <? 3) = true -> self f = s) /\
  (no_folds s -> model f = None).

End Spec.

Section Choice.
Context {A : Type}.

(** The last two statements of [SelectorBIC.select] and
    [SelectorCV.select]. *)
Definition choose (n_state_scores : list (float * option A)) : result (option A) :=
  if len n_state_scores =? 0 then Ok None
  else bind (py_max (fun x => Ok (fst x)) n_state_scores) (fun best => Ok (snd best)).

(** What the loop appends for candidate [n], against the candidate's
    specified quality: nothing when the candidate fails, otherwise its
    quality and model, possibly followed by entries whose score is
    [nan]. *)
Definition tracks (quality : Z -> option (float * A))
           (entries : Z -> list (float * option A)) (n : Z) : Prop :=
  match quality n with
  | Some (q, m) =>
      PyFloat.not_nan q /\
      exists tail, entries n = (q, Some m) :: tail /\
                   forall c, In c tail -> is_nan (fst c) = true
  | None => entries n = []
  end.

End Choice.
End Selectors.

(* ================================================================== *)
(** ** Stub collaborators and sample data, for concrete instances *)

Module Sample.
Import Py Ext Selectors.

(** Three folds: fold [j] holds out the sequences whose index is [j]
    modulo 3; fewer than three sequences cannot be split. *)
Definition kfold3 (seqs : list Xmat) : result (list (list nat * list nat)) :=
  let n := List.length seqs in
  if (n <? 3)%nat then Raise ValueError
  else Ok (map (fun j =>
                  (filter (fun i => negb (Nat.eqb (i mod 3) j)) (seq 0 n),
                   filter (fun i => Nat.eqb (i mod 3) j) (seq 0 n)))
               [0; 1; 2]%nat).

(** A trainer whose model records the state count and the number of
    training rows; it cannot fit three states.  A model of five states
    cannot score; the others score best near four states. *)
Definition stub : Library := {|
  Model := Z * nat;
  GaussianHMM_fit n rs X l :=
    if n =? 3 then Raise (LibraryError "no convergence"%string)
    else Ok (n, List.length X);
  score m X l :=
    if fst m =? 5 then Raise (LibraryError "cannot score"%string)
    else Ok (PyFloat.float_of_Z (- (fst m - 4) * (fst m - 4)
                                 + Z.of_nat (List.length X)));
  KFold_split rs := kfold3;
  np_log x := x
|}.

(** A trainer that never fits. *)
Definition failing : Library := {|
  Model := unit;
  GaussianHMM_fit n rs X l := Raise (LibraryError "no convergence"%string);
  score m X l := Ok 0%float;
  KFold_split rs := kfold3;
  np_log x := x
|}.

Definition frame (k : Z) : Xmat := [[PyFloat.float_of_Z k; 1%float]].

Definition two_sequences : list Xmat := [frame 1; frame 2].
Definition four_sequences : list Xmat := [frame 1; frame 2; frame 3; frame 4].

Definition selector_of (seqs : list Xmat) (min_n max_n : Z) (verbose : bool)
  : ModelSelector :=
  mkSelector [("A"%string, seqs)] [("A"%string, (List.concat seqs, map (@List.length _) seqs))]
             seqs (List.concat seqs) (map (@List.length _) seqs)
             "A"%string 3 min_n max_n 14 verbose.

Definition table : dict (Z * nat) :=
  [("A"%string, (4, 0%nat)); ("B"%string, (5, 0%nat)); ("C"%string, (4, 1%nat))].

Definition items : SinglesData :=
  [(frame 1, [1%nat]); (frame 1 ++ frame 2, [2%nat])].

Definition sample2 : ModelSelector := selector_of two_sequences 2 6 false.
Definition sample4 : ModelSelector := selector_of four_sequences 2 6 false.
Definition sample4_verbose : ModelSelector := selector_of four_sequences 2 6 true.

End Sample.

(* ================================================================== *)
(** ** The loops seen as folds, and further stub collaborators *)

Module Views.
Import Py Ext Recognizer Selectors.

Section Defs.
Context {L : Library}.

(** One pass of the outer loop of [recognize], given the item itself
    instead of its index. *)
Definition recognize_step (models : dict Model)
           (acc : list (dict float) * list string) (item : Xmat * list nat)
  : result (list (dict float) * list string) :=
  let world_LogLvalues := fold_left (score_word (fst item) (snd item)) models [] in
  bind (py_max (fun x => dict_getitem world_LogLvalues x)
               (dict_keys world_LogLvalues))
       (fun guess => Ok (fst acc ++ [world_LogLvalues], snd acc ++ [guess])).

(** The outer loop of [recognize] as a fold over the items. *)
Fixpoint recognize_items (models : dict Model) (items : list (Xmat * list nat))
         (acc : list (dict float) * list string)
  : result (list (dict float) * list string) :=
  match items with
  | [] => Ok acc
  | item :: r => bind (recognize_step models acc item) (recognize_items models r)
  end.

(** The loop over the candidates in [SelectorCV.select]. *)
Definition cv_loop (s : ModelSelector) (ns : list Z) : M unit :=
  for_each ns (fun n => try_ (cv_try (KFold_split (random_state s)) n)
                             (fun _ => ret tt)).

(** Two frames that differ at most in the [X] and [lengths] of the
    object. *)
Definition frames_alike (f1 f2 : Frame) : Prop :=
  same_but_X_lengths (self f1) (self f2) /\
  model f1 = model f2 /\ cv_scores f1 = cv_scores f2 /\
  n_state_scores f1 = n_state_scores f2.

(** Another run of the program: the libraries are the same, but what
    the trainer and the splitter answer is the run's own.  Whatever a seed
    does not pin down (the state of the global generator, the clock) may
    differ between two runs, so [fit'] and [split'] are arbitrary; that a
    seeded call gives the same answer in both runs is a hypothesis on the
    seed in question. *)
Definition another_run
           (fit' : Z -> Z -> Xmat -> list nat -> result Model)
           (split' : Z -> list Xmat -> result (list (list nat * list nat)))
  : Library :=
  {| Model := Model;
     GaussianHMM_fit := fit';
     score := score;
     KFold_split := split';
     np_log := np_log |}.

(** The frame [f'] of another run holds the locals of the frame [f], and
    the two objects agree on what [SelectorCV.select] reads of them. *)
Definition frames_agree
           (fit' : Z -> Z -> Xmat -> list nat -> result Model)
           (split' : Z -> list Xmat -> result (list (list nat * list nat)))
           (f : @Frame L) (f' : @Frame (another_run fit' split')) : Prop :=
  cv_inputs (self f') = cv_inputs (self f) /\
  model f' = model f /\ cv_scores f' = cv_scores f /\
  n_state_scores f' = n_state_scores f.

(** From the alike frames [f1] and [f2], two runs ended in [f1'] and
    [f2']: either they assigned the same [X] and [lengths], so that the
    objects are now equal, or neither assigned anything. *)
Definition settled (f1 f2 f1' f2' : Frame) : Prop :=
  self f1' = self f2' \/ (self f1' = self f1 /\ self f2' = self f2).

End Defs.
End Views.

Module Sample2.
Import Py Ext Selectors Sample.

(** Five folds: fold [j] holds out the sequences whose index is [j]
    modulo 5; fewer than five sequences cannot be split. *)
Definition kfold5 (seqs : list Xmat) : result (list (list nat * list nat)) :=
  let n := List.length seqs in
  if (n <? 5)%nat then Raise ValueError
  else Ok (map (fun j =>
                  (filter (fun i => negb (Nat.eqb (i mod 5) j)) (seq 0 n),
                   filter (fun i => Nat.eqb (i mod 5) j) (seq 0 n)))
               [0; 1; 2; 3; 4]%nat).

(** The stub collaborators with the five-fold splitter. *)
Definition stub5 : Library := {|
  Model := Z * nat;
  GaussianHMM_fit := @GaussianHMM_fit stub;
  score := @score stub;
  KFold_split rs := kfold5;
  np_log := @np_log stub
|}.

(** A trainer that always fits; its models of two states score [nan],
    the others score their state count. *)
Definition noisy : Library := {|
  Model := Z * nat;
  GaussianHMM_fit n rs X l := Ok (n, List.length X);
  score m X l := if fst m =? 2 then Ok nan else Ok (PyFloat.float_of_Z (fst m));
  KFold_split rs := kfold3;
  np_log x := x
|}.

(** A trainer that always fits and whose models all score zero. *)
Definition flat : Library := {|
  Model := Z * nat;
  GaussianHMM_fit n rs X l := Ok (n, List.length X);
  score m X l := Ok 0%float;
  KFold_split rs := kfold3;
  np_log x := 0%float
|}.

(** A run in which the trainer and the splitter answer as in [stub]
    when seeded with 14 and otherwise not at all. *)
Definition other_fit (n rs : Z) (X : Xmat) (l : list nat) : result (Z * nat) :=
  if rs =? 14 then @GaussianHMM_fit stub n rs X l
  else Raise (LibraryError "another seed"%string).

Definition other_split (rs : Z) (seqs : list Xmat)
  : result (list (list nat * list nat)) :=
  if rs =? 14 then kfold3 seqs else Ok [].

Definition noisy_table : dict (Z * nat) :=
  [("A"%string, (2, 0%nat)); ("B"%string, (5, 0%nat))].

Definition failing_table : dict (Z * nat) :=
  [("B"%string, (5, 0%nat)); ("D"%string, (5, 1%nat))].

Definition empty_range : ModelSelector := selector_of four_sequences 6 2 false.

(** The sample word with other observations in [X] and [lengths]. *)
Definition sample4_other_X : ModelSelector :=
  assign_X_lengths sample4 (frame 9) [1%nat].

End Sample2.

Module PyFloatFacts.
Import PyFloat.

Lemma lex3_cases (p q : Z * Z * Z) :
  let '(a1, b1, c1) := p in
  let '(a2, b2, c2) := q in
  (lex3 p q = Lt /\ (a1 < a2 \/ a1 = a2 /\ (b1 < b2 \/ b1 = b2 /\ c1 < c2))) \/
  (lex3 p q = Eq /\ a1 = a2 /\ b1 = b2 /\ c1 = c2) \/
  (lex3 p q = Gt /\ (a2 < a1 \/ a1 = a2 /\ (b2 < b1 \/ b1 = b2 /\ c2 < c1))).
Proof.
  destruct p as [[a1 b1] c1], q as [[a2 b2] c2]. unfold lex3.
  destruct (Z.compare_spec a1 a2); [|left; split; [reflexivity|lia] |
                                     right; right; split; [reflexivity|lia]].
  destruct (Z.compare_spec b1 b2); [|left; split; [reflexivity|lia] |
                                     right; right; split; [reflexivity|lia]].
  destruct (Z.compare_spec c1 c2).
  - right; left. repeat split; assumption.
  - left. split; [reflexivity|lia].
  - right; right. split; [reflexivity|lia].
Qed.

Ltac lex3_solve :=
  repeat match goal with
         | p : (Z * Z * Z)%type |- _ => destruct p as [[? ?] ?]
         end;
  repeat match goal with
         | |- context [lex3 (?a, ?b, ?c) (?d, ?e, ?f)] =>
             let H := fresh "L" in
             pose proof (lex3_cases (a, b, c) (d, e, f)) as H; cbv beta iota in H;
             generalize dependent (lex3 (a, b, c) (d, e, f)); intros
         | H : context [lex3 (?a, ?b, ?c) (?d, ?e, ?f)] |- _ =>
             let H' := fresh "L" in
             pose proof (lex3_cases (a, b, c) (d, e, f)) as H'; cbv beta iota in H';
             generalize dependent (lex3 (a, b, c) (d, e, f)); intros
         end;
  repeat match goal with
         | H : _ \/ _ |- _ => destruct H
         | H : _ /\ _ |- _ => destruct H
         end;
  subst; try congruence; try lia.

Lemma lex3_le_trans p q r : lex3_le p q -> lex3_le q r -> lex3_le p r.
Proof. unfold lex3_le. intros H1 H2. lex3_solve. Qed.

Lemma lex3_le_lt_trans p q r : lex3_le p q -> lex3_lt q r -> lex3_lt p r.
Proof. unfold lex3_le, lex3_lt. intros H1 H2. lex3_solve. Qed.

Lemma lex3_not_lt_le p q : lex3 p q <> Lt -> lex3_le q p.
Proof. unfold lex3_le. intros H1. lex3_solve. Qed.

Lemma SFcompare_key (x y : spec_float) :
  x <> S754_nan -> y <> S754_nan ->
  SFcompare x y = Some (lex3 (SFkey x) (SFkey y)).
Proof.
  intros Hx Hy.
  destruct x as [sx|sx| |sx mx ex], y as [sy|sy| |sy my ey];
    try congruence;
    try destruct sx; try destruct sy; try reflexivity.
  cbn [SFcompare SFkey lex3]. change (-1 ?= -1) with Eq. cbv iota.
  rewrite Z.compare_opp, (Z.compare_antisym ex ey).
  destruct (ex ?= ey); reflexivity.
Qed.

Lemma not_nan_spec (x : float) : not_nan x <-> Prim2SF x <> S754_nan.
Proof.
  unfold not_nan, is_nan. rewrite eqb_spec. unfold SFeqb.
  destruct (Prim2SF x) as [s|s| |s m e] eqn:E.
  - cbn. split; [discriminate | reflexivity].
  - destruct s; cbn; (split; [discriminate | reflexivity]).
  - cbn. split; [discriminate | congruence].
  - rewrite SFcompare_key by discriminate.
    assert (lex3 (SFkey (S754_finite s m e)) (SFkey (S754_finite s m e)) = Eq) as ->.
    { generalize (SFkey (S754_finite s m e)). intros p.
      pose proof (lex3_cases p p) as L. destruct p as [[a b] c].
      intuition lia. }
    cbn. split; [discriminate | reflexivity].
Qed.

Lemma ltb_key (a b : float) :
  not_nan a -> not_nan b -> ((a <? b)%float = true <-> lex3_lt (key a) (key b)).
Proof.
  intros Ha Hb. apply not_nan_spec in Ha, Hb.
  rewrite ltb_spec. unfold SFltb, lex3_lt, key.
  rewrite SFcompare_key by assumption.
  destruct (lex3 _ _); split; congruence.
Qed.

Lemma leb_key (a b : float) :
  not_nan a -> not_nan b -> ((a <=? b)%float = true <-> lex3_le (key a) (key b)).
Proof.
  intros Ha Hb. apply not_nan_spec in Ha, Hb.
  rewrite leb_spec. unfold SFleb, lex3_le, key.
  rewrite SFcompare_key by assumption.
  destruct (lex3 _ _); split; congruence.
Qed.

Lemma ltb_not_nan (a b : float) : (a <? b)%float = true -> not_nan a /\ not_nan b.
Proof.
  rewrite ltb_spec. unfold SFltb. intros H.
  split; apply not_nan_spec; intros E; rewrite E in H.
  - discriminate.
  - destruct (Prim2SF a) as [| [] | | [] ]; discriminate.
Qed.

Lemma leb_not_nan (a b : float) : (a <=? b)%float = true -> not_nan a /\ not_nan b.
Proof.
  rewrite leb_spec. unfold SFleb. intros H.
  split; apply not_nan_spec; intros E; rewrite E in H.
  - discriminate.
  - destruct (Prim2SF a) as [| [] | | [] ]; discriminate.
Qed.

Lemma leb_refl (a : float) : not_nan a -> (a <=? a)%float = true.
Proof.
  intros Ha. apply leb_key; [assumption .. |].
  unfold lex3_le. generalize (key a). intros p. lex3_solve.
Qed.

Lemma ltb_leb (a b : float) : (a <? b)%float = true -> (a <=? b)%float = true.
Proof.
  intros H. destruct (ltb_not_nan _ _ H) as [Ha Hb].
  apply leb_key; [assumption .. |]. apply ltb_key in H; [|assumption ..].
  unfold lex3_le, lex3_lt in *. congruence.
Qed.

Lemma leb_trans (a b c : float) :
  (a <=? b)%float = true -> (b <=? c)%float = true -> (a <=? c)%float = true.
Proof.
  intros H1 H2.
  destruct (leb_not_nan _ _ H1) as [Ha Hb]. destruct (leb_not_nan _ _ H2) as [_ Hc].
  apply leb_key in H1, H2; try assumption.
  apply leb_key; try assumption. eapply lex3_le_trans; eassumption.
Qed.

Lemma leb_ltb_trans (a b c : float) :
  (a <=? b)%float = true -> (b <? c)%float = true -> (a <? c)%float = true.
Proof.
  intros H1 H2.
  destruct (leb_not_nan _ _ H1) as [Ha Hb]. destruct (ltb_not_nan _ _ H2) as [_ Hc].
  apply leb_key in H1; try assumption. apply ltb_key in H2; try assumption.
  apply ltb_key; try assumption. eapply lex3_le_lt_trans; eassumption.
Qed.

Lemma ltb_false_leb (a b : float) :
  not_nan a -> not_nan b -> (a <? b)%float = false -> (b <=? a)%float = true.
Proof.
  intros Ha Hb H. apply leb_key; try assumption.
  apply lex3_not_lt_le. intros E.
  apply ltb_key in E; try assumption. congruence.
Qed.

Lemma leb_neg_infinity (a : float) :
  (a <=? neg_infinity)%float = true -> a = neg_infinity.
Proof.
  rewrite leb_spec. unfold SFleb. intros H. apply Prim2SF_inj.
  change (Prim2SF neg_infinity) with (S754_infinity true) in *.
  destruct (Prim2SF a) as [| [] | | [] ]; try discriminate. reflexivity.
Qed.

Lemma not_nan_neg_infinity : not_nan neg_infinity.
Proof. reflexivity. Qed.

End PyFloatFacts.

(* ================================================================== *)
(** ** Facts about the Python containers and [max] *)

Module PyFacts.
Import Py PyFloat PyFloatFacts.

Lemma range_In (a b n : Z) : In n (range a (b + 1)) <-> a <= n <= b.
Proof.
  unfold range. rewrite in_map_iff. split.
  - intros [i [<- Hi]]. apply in_seq in Hi. lia.
  - intros H. exists (Z.to_nat (n - a)). split; [lia|].
    apply in_seq. lia.
Qed.

Lemma range_empty (a b : Z) : b < a -> range a (b + 1) = [].
Proof. intros H. unfold range. replace (Z.to_nat (b + 1 - a)) with 0%nat by lia. reflexivity. Qed.

Lemma range_last (a b : Z) :
  a <= b -> range a (b + 1) = range a b ++ [b].
Proof.
  intros H. unfold range.
  replace (Z.to_nat (b + 1 - a)) with (Z.to_nat (b - a) + 1)%nat by lia.
  rewrite seq_app, map_app. cbn. f_equal. f_equal. lia.
Qed.

(** *** Dictionaries *)

Lemma dict_get_In {V} (d : dict V) (k : string) (v : V) :
  dict_get d k = Some v -> In (k, v) d.
Proof.
  induction d as [|[k' v'] r IH]; cbn; [discriminate|].
  destruct (String.eqb_spec k k') as [->|Hne]; intros H.
  - inversion H. left. reflexivity.
  - right. apply IH, H.
Qed.

Lemma dict_get_key {V} (d : dict V) (k : string) :
  In k (dict_keys d) -> exists v, dict_get d k = Some v.
Proof.
  induction d as [|[k' v'] r IH]; cbn; [intros []|].
  destruct (String.eqb_spec k k') as [->|Hne]; intros H.
  - exists v'. reflexivity.
  - destruct H as [H|H]; [congruence|]. apply IH, H.
Qed.

Lemma dict_set_fresh {V} (d : dict V) (k : string) (v : V) :
  ~ In k (dict_keys d) -> dict_set d k v = d ++ [(k, v)].
Proof.
  induction d as [|[k' v'] r IH]; cbn; [reflexivity|].
  intros H. destruct (String.eqb_spec k k') as [->|Hne].
  - exfalso. apply H. left. reflexivity.
  - f_equal. apply IH. intros Hin. apply H. right. assumption.
Qed.

Lemma dict_set_nonempty {V} (d : dict V) (k : string) (v : V) : dict_set d k v <> [].
Proof. destruct d as [|[k' v'] r]; cbn; [|destruct (String.eqb k k')]; discriminate. Qed.

(** *** [max] with a key *)

Section Max.
Context {A : Type} (key : A -> result float) (k : A -> float).

Lemma max_loop_total (l : list A) :
  (forall x, In x l -> exists v, key x = Ok v) ->
  forall best bk, exists r, max_loop key best bk l = Ok r.
Proof.
  induction l as [|x r IH]; cbn; intros H best bk.
  - exists best. reflexivity.
  - destruct (H x (or_introl eq_refl)) as [v ->]. cbn.
    destruct (bk <? v)%float; apply IH; intros; apply H; right; assumption.
Qed.

Lemma py_max_total (l : list A) :
  l <> [] -> (forall x, In x l -> exists v, key x = Ok v) ->
  exists r, py_max key l = Ok r.
Proof.
  destruct l as [|x r]; [congruence|]. intros _ H. cbn.
  destruct (H x (or_introl eq_refl)) as [v ->]. cbn.
  apply max_loop_total. intros; apply H; right; assumption.
Qed.

(** The scan keeps the first item whose key is greatest among the keys
    that are numbers. *)
Lemma max_loop_spec (l : list A) :
  (forall x, In x l -> key x = Ok (k x)) ->
  forall pre best post,
    not_nan (k best) ->
    (forall x, In x pre -> not_nan (k x) -> (k x <? k best)%float = true) ->
    (forall x, In x post -> not_nan (k x) -> (k x <=? k best)%float = true) ->
    exists l1 r l2,
      pre ++ best :: post ++ l = l1 ++ r :: l2 /\
      max_loop key best (k best) l = Ok r /\
      not_nan (k r) /\
      (forall x, In x l1 -> not_nan (k x) -> (k x <? k r)%float = true) /\
      (forall x, In x l2 -> not_nan (k x) -> (k x <=? k r)%float = true).
Proof.
  induction l as [|x r IH]; intros Hkey pre best post Hb Hpre Hpost.
  - exists pre, best, post. rewrite app_nil_r. cbn. auto.
  - cbn [max_loop]. rewrite (Hkey x (or_introl eq_refl)). cbn [bind].
    assert (Hkey' : forall y, In y r -> key y = Ok (k y))
      by (intros; apply Hkey; right; assumption).
    unfold gtb. destruct (k best <? k x)%float eqn:E.
    + destruct (ltb_not_nan _ _ E) as [_ Hx].
      destruct (IH Hkey' (pre ++ best :: post) x [] Hx) as (l1 & m & l2 & Heq & Hrest).
      * intros y Hy Hny. apply in_app_or in Hy. destruct Hy as [Hy|[<-|Hy]].
        -- eapply leb_ltb_trans; [apply ltb_leb, Hpre; assumption | exact E].
        -- exact E.
        -- eapply leb_ltb_trans; [apply Hpost; assumption | exact E].
      * intros y [].
      * exists l1, m, l2. split; [|exact Hrest].
        rewrite <- Heq. cbn. rewrite <- app_assoc. reflexivity.
    + destruct (IH Hkey' pre best (post ++ [x]) Hb Hpre) as (l1 & m & l2 & Heq & Hrest).
      * intros y Hy Hny. apply in_app_or in Hy. destruct Hy as [Hy|[<-|[]]].
        -- apply Hpost; assumption.
        -- apply ltb_false_leb; assumption.
      * exists l1, m, l2. split; [|exact Hrest].
        rewrite <- Heq. rewrite <- app_assoc. reflexivity.
Qed.

Lemma py_max_spec (x : A) (r : list A) :
  (forall y, In y (x :: r) -> key y = Ok (k y)) ->
  not_nan (k x) ->
  exists l1 m l2,
    x :: r = l1 ++ m :: l2 /\
    py_max key (x :: r) = Ok m /\
    not_nan (k m) /\
    (forall y, In y l1 -> not_nan (k y) -> (k y <? k m)%float = true) /\
    (forall y, In y l2 -> not_nan (k y) -> (k y <=? k m)%float = true).
Proof.
  intros Hkey Hx. cbn [py_max]. rewrite (Hkey x (or_introl eq_refl)). cbn [bind].
  destruct (max_loop_spec r (fun y Hy => Hkey y (or_intror Hy)) [] x [] Hx)
    as (l1 & m & l2 & Heq & Hrest).
  - intros y [].
  - intros y [].
  - exists l1, m, l2. split; [exact Heq | exact Hrest].
Qed.

(** Every item whose key is a number is at most the item returned. *)
Lemma py_max_ge (x : A) (r : list A) (m : A) :
  (forall y, In y (x :: r) -> key y = Ok (k y)) ->
  not_nan (k x) ->
  py_max key (x :: r) = Ok m ->
  In m (x :: r) /\ not_nan (k m) /\
  forall y, In y (x :: r) -> not_nan (k y) -> (k y <=? k m)%float = true.
Proof.
  intros Hkey Hx Hm.
  destruct (py_max_spec x r Hkey Hx) as (l1 & m' & l2 & Heq & Hm' & Hnn & H1 & H2).
  rewrite Hm in Hm'. inversion Hm'; subst m'. rewrite Heq.
  split; [apply in_or_app; right; left; reflexivity|].
  split; [assumption|].
  intros y Hy Hny. apply in_app_or in Hy. destruct Hy as [Hy|[<-|Hy]].
  - apply ltb_leb, H1; assumption.
  - apply leb_refl; assumption.
  - apply H2; assumption.
Qed.

End Max.

End PyFacts.

(* ================================================================== *)
(** ** The recognizer *)

Module RecognizerFacts.
Import Py Ext PyFloat PyFloatFacts PyFacts Recognizer.

Section Facts.
Context {L : Library}.

Lemma profile_of_keys (models : dict Model) item :
  dict_keys (profile_of models item) = dict_keys models.
Proof. unfold profile_of, dict_keys. rewrite map_map. reflexivity. Qed.

Lemma profile_of_get (models : dict Model) item word model :
  dict_get models word = Some model ->
  dict_get (profile_of models item) word = Some (recorded model item).
Proof.
  induction models as [|[w m] r IH]; cbn; [discriminate|].
  destruct (String.eqb word w); [intros H; inversion H; reflexivity | exact IH].
Qed.

Lemma profile_of_get_inv (models : dict Model) item word v :
  dict_get (profile_of models item) word = Some v ->
  exists model, dict_get models word = Some model /\ v = recorded model item.
Proof.
  induction models as [|[w m] r IH]; cbn; [discriminate|].
  destruct (String.eqb word w); [|exact IH].
  intros H; inversion H. exists m. split; reflexivity.
Qed.

Lemma score_word_set sequence lengths d word model :
  score_word sequence lengths d (word, model)
  = dict_set d word (recorded model (sequence, lengths)).
Proof. unfold score_word, recorded. cbn. destruct (score model sequence lengths); reflexivity. Qed.

Lemma fold_score_word (models : dict Model) sequence lengths (acc : dict float) :
  NoDup (dict_keys acc ++ dict_keys models) ->
  fold_left (score_word sequence lengths) models acc
  = acc ++ profile_of models (sequence, lengths).
Proof.
  revert acc. induction models as [|[w m] r IH]; intros acc Hnd.
  - cbn. rewrite app_nil_r. reflexivity.
  - cbn [fold_left]. rewrite score_word_set.
    cbn in Hnd. rewrite dict_set_fresh.
    + rewrite IH.
      * rewrite <- app_assoc. reflexivity.
      * unfold dict_keys in *. rewrite map_app, <- app_assoc. exact Hnd.
    + apply NoDup_remove_2 in Hnd. intros Hin. apply Hnd.
      apply in_or_app. left. exact Hin.
Qed.

Lemma fold_score_word_nonempty (models : dict Model) sequence lengths acc :
  models <> [] \/ acc <> [] ->
  fold_left (score_word sequence lengths) models acc <> [].
Proof.
  revert acc. induction models as [|[w m] r IH]; intros acc H.
  - cbn. destruct H; congruence.
  - cbn [fold_left]. apply IH. right. rewrite score_word_set.
    apply dict_set_nonempty.
Qed.

(** With at least one word in the table, one pass of the outer loop
    raises nothing. *)
Lemma recognize_item_total (models : dict Model) (test_set : SinglesData) acc i :
  models <> [] -> (i < List.length test_set)%nat ->
  exists out, recognize_item models test_set acc i = Ok out.
Proof.
  intros Hm Hi. destruct acc as [probabilities guesses]. unfold recognize_item.
  unfold get_item_Xlengths.
  destruct (nth_error test_set i) as [[sequence lengths]|] eqn:E.
  - cbn [bind]. set (d := fold_left (score_word sequence lengths) models []).
    destruct (py_max_total (fun x => dict_getitem d x) (dict_keys d)) as [g ->].
    + subst d. intros H. apply map_eq_nil in H.
      revert H. apply fold_score_word_nonempty. left. exact Hm.
    + intros x Hx. destruct (dict_get_key d x Hx) as [v Hv].
      exists v. unfold dict_getitem. rewrite Hv. reflexivity.
    + cbn. eexists. reflexivity.
  - apply nth_error_None in E. lia.
Qed.

Lemma recognize_loop_total (models : dict Model) (test_set : SinglesData) :
  models <> [] ->
  forall n a acc, (a + n <= List.length test_set)%nat ->
  exists out, recognize_loop models test_set (seq a n) acc = Ok out.
Proof.
  intros Hm. induction n as [|n IH]; intros a acc Hle; cbn.
  - exists acc. reflexivity.
  - destruct (recognize_item_total models test_set acc a Hm) as [acc' ->]; [lia|].
    cbn. apply IH. lia.
Qed.

Lemma recognize_total (models : dict Model) (test_set : SinglesData) :
  models <> [] -> exists out, recognize models test_set = Ok out.
Proof.
  intros Hm. apply recognize_loop_total; [exact Hm|].
  unfold get_all_sequences. lia.
Qed.

Lemma recognize_loop_spec (models : dict Model) :
  dict_wf models ->
  forall rest pre acc out,
    recognize_loop models (pre ++ rest)
                   (seq (List.length pre) (List.length rest)) acc = Ok out ->
    exists gs, out = (fst acc ++ map (profile_of models) rest, snd acc ++ gs) /\
               Forall2 (is_guess models) rest gs.
Proof.
  intros Hwf. induction rest as [|item rest IH]; intros pre acc out H.
  - cbn in H. inversion H; subst out. exists []. cbn.
    rewrite !app_nil_r. split; [destruct acc; reflexivity | constructor].
  - cbn [List.length seq recognize_loop] in H.
    destruct acc as [probabilities guesses].
    unfold recognize_item at 1 in H. unfold get_item_Xlengths in H.
    rewrite nth_error_app2, Nat.sub_diag in H by lia. cbn [nth_error bind] in H.
    destruct item as [sequence lengths].
    rewrite fold_score_word in H by (cbn; exact Hwf).
    cbn [app] in H.
    destruct (py_max _ _) as [g|e] eqn:Eg; cbn [bind] in H; [|discriminate].
    replace (pre ++ (sequence, lengths) :: rest)
      with ((pre ++ [(sequence, lengths)]) ++ rest) in H
      by (rewrite <- app_assoc; reflexivity).
    replace (S (List.length pre)) with (List.length (pre ++ [(sequence, lengths)])) in H
      by (rewrite length_app; cbn; lia).
    apply IH in H. destruct H as (gs & -> & HF).
    exists (g :: gs). cbn [fst snd map]. rewrite <- !app_assoc. cbn [app].
    split; [reflexivity|]. constructor; [exact Eg | exact HF].
Qed.

Lemma recognize_spec (models : dict Model) (test_set : SinglesData) probabilities guesses :
  dict_wf models ->
  recognize models test_set = Ok (probabilities, guesses) ->
  probabilities = map (profile_of models) test_set /\
  Forall2 (is_guess models) test_set guesses.
Proof.
  intros Hwf H. unfold recognize, get_all_sequences in H.
  apply (recognize_loop_spec models Hwf test_set [] ([], [])) in H.
  destruct H as (gs & Heq & HF). cbn in Heq. inversion Heq; subst.
  split; [reflexivity | exact HF].
Qed.

Lemma Forall2_nth_error {A B} (P : A -> B -> Prop) (l : list A) (l' : list B) :
  Forall2 P l l' ->
  forall i x, nth_error l i = Some x -> exists y, nth_error l' i = Some y /\ P x y.
Proof.
  induction 1 as [|a b l l' Hab HF IH]; intros i x Hi.
  - destruct i; discriminate.
  - destruct i as [|i]; cbn in *.
    + inversion Hi; subst. exists b. split; [reflexivity | assumption].
    + apply IH, Hi.
Qed.

(** Every value of a profile is a number when the models' scores are. *)
Lemma profile_not_nan (models : dict Model) (test_set : SinglesData) item :
  (forall word model item v,
      In (word, model) models -> In item test_set ->
      score model (fst item) (snd item) = Ok v -> not_nan v) ->
  In item test_set ->
  forall word v, dict_get (profile_of models item) word = Some v -> not_nan v.
Proof.
  intros Hreal Hitem word v Hv.
  apply profile_of_get_inv in Hv. destruct Hv as (model & Hm & ->).
  apply dict_get_In in Hm. unfold recorded.
  destruct (score model (fst item) (snd item)) as [v|e] eqn:E.
  - eapply Hreal; eassumption.
  - apply not_nan_neg_infinity.
Qed.

(** C5: for every test item the profile returned by [recognize] has
    exactly the keys of the model table, in the table's order; each word's
    value is its model's score of the item, and negative infinity when the
    model fails to score it.  With a non-empty table [recognize] returns. *)
Theorem recognize_profile_complete (models : dict Model) (test_set : SinglesData) :
  dict_wf models ->
  (models <> [] -> exists out, recognize models test_set = Ok out) /\
  forall probabilities guesses,
    recognize models test_set = Ok (probabilities, guesses) ->
    List.length probabilities = List.length test_set /\
    forall i item,
      nth_error test_set i = Some item ->
      exists profile,
        nth_error probabilities i = Some profile /\
        dict_keys profile = dict_keys models /\
        forall word model,
          dict_get models word = Some model ->
          match score model (fst item) (snd item) with
          | Ok v => dict_get profile word = Some v
          | Raise _ => dict_get profile word = Some neg_infinity
          end.
Proof.
  intros Hwf. split; [apply recognize_total|].
  intros probabilities guesses H.
  apply recognize_spec in H; [|exact Hwf]. destruct H as [-> _].
  split; [apply length_map|].
  intros i item Hi. exists (profile_of models item).
  split; [rewrite nth_error_map, Hi; reflexivity|].
  split; [apply profile_of_keys|].
  intros word model Hm.
  pose proof (profile_of_get models item word model Hm) as Hp.
  unfold recorded in Hp. destruct (score model (fst item) (snd item)); exact Hp.
Qed.

(** C6: the guess for every test item is the word of greatest recorded
    value in that item's profile, the first such word in the order of the
    model table; both output lists have one entry per test item, in the
    test set's order; and a guess whose value is negative infinity means
    that every word's value is negative infinity.  Scores are real
    numbers, as the scoring interface says: never [nan]. *)
Theorem recognize_guess_argmax (models : dict Model) (test_set : SinglesData) :
  dict_wf models ->
  (forall word model item v,
      In (word, model) models -> In item test_set ->
      score model (fst item) (snd item) = Ok v -> not_nan v) ->
  (models <> [] -> exists out, recognize models test_set = Ok out) /\
  forall probabilities guesses,
    recognize models test_set = Ok (probabilities, guesses) ->
    List.length probabilities = List.length test_set /\
    List.length guesses = List.length test_set /\
    forall i item,
      nth_error test_set i = Some item ->
      exists profile guess v,
        nth_error probabilities i = Some profile /\
        nth_error guesses i = Some guess /\
        (forall word model, dict_get models word = Some model ->
                            dict_get profile word = Some (recorded model item)) /\
        dict_get profile guess = Some v /\
        (forall word v', dict_get profile word = Some v' -> (v' <=? v)%float = true) /\
        (exists before after,
            dict_keys models = before ++ guess :: after /\
            forall word v', In word before -> dict_get profile word = Some v' ->
                            (v' <? v)%float = true) /\
        (v = neg_infinity ->
         forall word v', dict_get profile word = Some v' -> v' = neg_infinity).
Proof.
  intros Hwf Hreal. split; [apply recognize_total|].
  intros probabilities guesses H.
  apply recognize_spec in H; [|exact Hwf]. destruct H as [-> HF].
  split; [apply length_map|].
  split; [symmetry; eapply Forall2_length; exact HF|].
  intros i item Hi.
  destruct (Forall2_nth_error _ _ _ HF i item Hi) as (guess & Hg & Hmax).
  assert (Hitem : In item test_set) by (eapply nth_error_In; exact Hi).
  pose proof (profile_not_nan models test_set item Hreal Hitem) as Hnn.
  set (profile := profile_of models item) in *.
  set (k := fun w => match dict_get profile w with Some v => v | None => neg_infinity end).
  assert (Hkey : forall y, In y (dict_keys profile) ->
                           dict_getitem profile y = Ok (k y)).
  { intros y Hy. destruct (dict_get_key profile y Hy) as [v Hv].
    unfold dict_getitem, k. rewrite Hv. reflexivity. }
  assert (Hk : forall y, not_nan (k y)).
  { intros y. unfold k. destruct (dict_get profile y) as [v|] eqn:E.
    - eapply Hnn; exact E.
    - apply not_nan_neg_infinity. }
  unfold is_guess in Hmax. fold profile in Hmax.
  destruct (dict_keys profile) as [|x r] eqn:Ekeys; [discriminate|].
  destruct (py_max_spec (fun x => dict_getitem profile x) k x r Hkey (Hk x))
    as (l1 & m & l2 & Heq & Hm & _ & H1 & H2).
  rewrite Hmax in Hm. inversion Hm; subst m. clear Hm.
  assert (Hin : In guess (dict_keys profile)).
  { rewrite Ekeys, Heq. apply in_or_app. right. left. reflexivity. }
  destruct (dict_get_key profile guess Hin) as [v Hv].
  assert (Hkg : k guess = v) by (unfold k; rewrite Hv; reflexivity).
  assert (Hle : forall word v', dict_get profile word = Some v' ->
                                (v' <=? v)%float = true).
  { intros word v' Hw.
    assert (Hkw : k word = v') by (unfold k; rewrite Hw; reflexivity).
    assert (Hinw : In word (x :: r)).
    { rewrite <- Ekeys. apply dict_get_In in Hw.
      apply (in_map fst) in Hw. exact Hw. }
    rewrite <- Hkw, <- Hkg. rewrite Heq in Hinw.
    apply in_app_or in Hinw. destruct Hinw as [Hw'|[<-|Hw']].
    - apply ltb_leb, H1; [exact Hw' | apply Hk].
    - apply leb_refl, Hk.
    - apply H2; [exact Hw' | apply Hk]. }
  exists profile, guess, v.
  split; [rewrite nth_error_map, Hi; reflexivity|].
  split; [exact Hg|].
  split; [intros word model Hw; apply profile_of_get; exact Hw|].
  split; [exact Hv|].
  split; [exact Hle|].
  split.
  - exists l1, l2. split.
    + rewrite <- (profile_of_keys models item). fold profile.
      rewrite Ekeys. exact Heq.
    + intros word v' Hw Hgw.
      assert (Hkw : k word = v') by (unfold k; rewrite Hgw; reflexivity).
      rewrite <- Hkw, <- Hkg. apply H1; [exact Hw | apply Hk].
  - intros -> word v' Hw. apply leb_neg_infinity. eapply Hle. exact Hw.
Qed.

(** C10: with an empty model table and at least one test item,
    [recognize] raises [ValueError] (the maximum of an empty profile);
    with at least one word in the table it returns a result. *)
Theorem recognize_empty_table (models : dict Model) (test_set : SinglesData) :
  (models = [] -> test_set <> [] -> recognize models test_set = Raise ValueError) /\
  (models <> [] -> exists out, recognize models test_set = Ok out).
Proof.
  split; [|apply recognize_total].
  intros -> Hne. destruct test_set as [|[sequence lengths] rest]; [congruence|].
  reflexivity.
Qed.

End Facts.
End RecognizerFacts.

(* ================================================================== *)
(** ** Choosing the best-scored candidate *)

Module ChoiceFacts.
Import Py PyFloat PyFloatFacts PyFacts Selectors.

Section Choice.
Context {A : Type}.

Lemma choose_cons (c : float * option A) l :
  choose (c :: l) = bind (py_max (fun x => Ok (fst x)) (c :: l)) (fun best => Ok (snd best)).
Proof.
  unfold choose, len. cbn [List.length].
  destruct (Z.eqb_spec (Z.of_nat (S (List.length l))) 0); [lia | reflexivity].
Qed.

Lemma scores_empty (quality : Z -> option (float * A)) entries (ns : list Z) :
  (forall n, In n ns -> tracks quality entries n) ->
  (forall n, In n ns -> quality n = None) ->
  flat_map entries ns = [].
Proof.
  induction ns as [|n ns IH]; intros Ht Hq; [reflexivity|].
  cbn. pose proof (Ht n (or_introl eq_refl)) as Hn. unfold tracks in Hn.
  rewrite (Hq n (or_introl eq_refl)) in Hn. rewrite Hn. cbn.
  apply IH; intros; [apply Ht | apply Hq]; right; assumption.
Qed.

Lemma scores_head (quality : Z -> option (float * A)) entries (ns : list Z) c l :
  (forall n, In n ns -> tracks quality entries n) ->
  flat_map entries ns = c :: l -> not_nan (fst c).
Proof.
  induction ns as [|n ns IH]; intros Ht H; [discriminate|].
  cbn in H. pose proof (Ht n (or_introl eq_refl)) as Hn. unfold tracks in Hn.
  destruct (quality n) as [[q m]|].
  - destruct Hn as (Hq & tail & E & _). rewrite E in H. cbn in H.
    inversion H. exact Hq.
  - rewrite Hn in H. cbn in H. apply IH; [|exact H].
    intros; apply Ht; right; assumption.
Qed.

Lemma scores_In (quality : Z -> option (float * A)) entries (ns : list Z) n q m :
  (forall n, In n ns -> tracks quality entries n) ->
  In n ns -> quality n = Some (q, m) ->
  In (q, Some m) (flat_map entries ns) /\ not_nan q.
Proof.
  intros Ht Hn Hq. pose proof (Ht n Hn) as H. unfold tracks in H.
  rewrite Hq in H. destruct H as (Hnn & tail & E & _).
  split; [|exact Hnn]. apply in_flat_map. exists n. split; [exact Hn|].
  rewrite E. left. reflexivity.
Qed.

Lemma scores_inv (quality : Z -> option (float * A)) entries (ns : list Z) c :
  (forall n, In n ns -> tracks quality entries n) ->
  In c (flat_map entries ns) -> not_nan (fst c) ->
  exists n q m, In n ns /\ quality n = Some (q, m) /\ c = (q, Some m).
Proof.
  intros Ht Hc Hnn. apply in_flat_map in Hc. destruct Hc as (n & Hn & Hc).
  pose proof (Ht n Hn) as H. unfold tracks in H.
  destruct (quality n) as [[q m]|] eqn:Eq.
  - destruct H as (_ & tail & E & Htail). rewrite E in Hc.
    destruct Hc as [<-|Hc].
    + exists n, q, m. auto.
    + apply Htail in Hc. unfold not_nan in Hnn. congruence.
  - rewrite H in Hc. destruct Hc.
Qed.

(** Choosing among tracked entries returns nothing when every candidate
    fails, and otherwise the model of a candidate of greatest quality. *)
Lemma choose_spec (quality : Z -> option (float * A)) entries (ns : list Z) :
  (forall n, In n ns -> tracks quality entries n) ->
  ((forall n, In n ns -> quality n = None) ->
   choose (flat_map entries ns) = Ok None) /\
  ((exists n, In n ns /\ quality n <> None) ->
   exists n q m,
     In n ns /\ quality n = Some (q, m) /\
     choose (flat_map entries ns) = Ok (Some m) /\
     forall n' q' m', In n' ns -> quality n' = Some (q', m') ->
                      (q' <=? q)%float = true).
Proof.
  intros Ht. split.
  - intros Hq. rewrite (scores_empty quality entries ns Ht Hq). reflexivity.
  - intros (n0 & Hn0 & Hq0).
    destruct (quality n0) as [[q0 m0]|] eqn:E0; [|congruence].
    destruct (scores_In _ _ _ _ _ _ Ht Hn0 E0) as [Hin0 _].
    destruct (flat_map entries ns) as [|c l] eqn:Es; [destruct Hin0|].
    pose proof (scores_head _ _ _ _ _ Ht Es) as Hc.
    rewrite choose_cons.
    destruct (py_max_total (fun x : float * option A => Ok (fst x)) (c :: l))
      as [best Hbest]; [discriminate | intros; eexists; reflexivity |].
    destruct (py_max_ge (fun x : float * option A => Ok (fst x)) fst c l best
                        (fun _ _ => eq_refl) Hc Hbest) as (Hin & Hnn & Hge).
    rewrite <- Es in Hin.
    destruct (scores_inv _ _ _ _ Ht Hin Hnn) as (n & q & m & Hn & Hq & ->).
    exists n, q, m. rewrite Hbest. cbn.
    repeat split; try assumption.
    intros n' q' m' Hn' Hq'.
    destruct (scores_In _ _ _ _ _ _ Ht Hn' Hq') as [Hin' Hnn'].
    rewrite Es in Hin'. apply (Hge (q', Some m') Hin' Hnn').
Qed.

End Choice.
End ChoiceFacts.

(* ================================================================== *)
(** ** The selectors *)

Module SelectorFacts.
Import Py Ext PyFloat PyFloatFacts PyFacts Selectors Views ChoiceFacts.

Section Facts.
Context {L : Library}.

(** *** base_model *)

Lemma base_model_eq (s : ModelSelector) (n : Z) :
  base_model s n
  = Ok (match GaussianHMM_fit n (random_state s) (X s) (lengths s) with
        | Ok m => Some m
        | Raise _ => None
        end).
Proof.
  unfold base_model.
  destruct (GaussianHMM_fit n (random_state s) (X s) (lengths s)); reflexivity.
Qed.


(** *** SelectorDIC *)

(** C4: [SelectorDIC.select] computes no criterion at all: on every
    selector it raises [NotImplementedError] and leaves the object as it
    was. *)
Theorem SelectorDIC_select_not_implemented (s : ModelSelector) :
  SelectorDIC_select s = Raise NotImplementedError /\
  select SelectorDIC s = (Raise NotImplementedError, s).
Proof. split; reflexivity. Qed.

(** *** SelectorBIC *)

Lemma bic_loop_scores (s : ModelSelector) (ns : list Z) acc :
  fold_left (bic_step s) ns acc
  = acc ++ flat_map (fun n => match bic_try s n with
                              | Ok c => [c]
                              | Raise _ => []
                              end) ns.
Proof.
  revert acc. induction ns as [|n ns IH]; intros acc; cbn.
  - rewrite app_nil_r. reflexivity.
  - rewrite IH. unfold bic_step.
    destruct (bic_try s n); cbn; rewrite <- ?app_assoc; reflexivity.
Qed.

Lemma bic_try_quality (s : ModelSelector) (n : Z) :
  X s <> [] ->
  match bic_quality s n with
  | Some (q, m) => bic_try s n = Ok (q, Some m)
  | None => exists e, bic_try s n = Raise e
  end.
Proof.
  intros HX. unfold bic_quality, fit_and_score, bic_try. rewrite base_model_eq.
  cbn [bind].
  destruct (GaussianHMM_fit n (random_state s) (X s) (lengths s)) as [m|e]; cbn.
  - destruct (score m (X s) (lengths s)) as [v|e]; cbn.
    + destruct (X s) as [|row rest]; [congruence|]. reflexivity.
    + eexists; reflexivity.
  - eexists; reflexivity.
Qed.

Lemma SelectorBIC_select_choose (s : ModelSelector) :
  SelectorBIC_select s
  = choose (flat_map (fun n => match bic_try s n with
                               | Ok c => [c]
                               | Raise _ => []
                               end)
                     (range (min_n_components s) (max_n_components s + 1))).
Proof. unfold SelectorBIC_select. rewrite bic_loop_scores. reflexivity. Qed.

(** C2: [SelectorBIC.select] returns nothing when no candidate of the
    range fits and scores, and otherwise the model of a candidate whose
    BIC, -2 logL + p ln N with p = n^2 + 2 d n - 1, is greatest among the
    candidates of the range that fit and score.  The word has at least one
    observation row (so that d is defined) and the computed BIC values are
    numbers. *)
Theorem SelectorBIC_select_spec (s : ModelSelector) :
  X s <> [] ->
  (forall n q m, min_n_components s <= n <= max_n_components s ->
                 bic_quality s n = Some (q, m) -> not_nan q) ->
  ((forall n, min_n_components s <= n <= max_n_components s ->
              bic_quality s n = None) ->
   SelectorBIC_select s = Ok None) /\
  ((exists n, min_n_components s <= n <= max_n_components s /\
              bic_quality s n <> None) ->
   exists n logL m,
     min_n_components s <= n <= max_n_components s /\
     GaussianHMM_fit n (random_state s) (X s) (lengths s) = Ok m /\
     score m (X s) (lengths s) = Ok logL /\
     bic_quality s n
     = Some (bic_value n (len (hd [] (X s))) (len (X s)) logL, m) /\
     SelectorBIC_select s = Ok (Some m) /\
     forall n' q' m',
       min_n_components s <= n' <= max_n_components s ->
       bic_quality s n' = Some (q', m') ->
       (q' <=? bic_value n (len (hd [] (X s))) (len (X s)) logL)%float = true).
Proof.
  intros HX Hreal. rewrite SelectorBIC_select_choose.
  set (ns := range (min_n_components s) (max_n_components s + 1)).
  set (entries := fun n => match bic_try s n with Ok c => [c] | Raise _ => [] end).
  assert (Ht : forall n, In n ns -> tracks (bic_quality s) entries n).
  { intros n Hn. apply range_In in Hn. unfold tracks, entries.
    pose proof (bic_try_quality s n HX) as Hq.
    destruct (bic_quality s n) as [[q m]|] eqn:E.
    - rewrite Hq. split; [eapply Hreal; eassumption|].
      exists []. split; [reflexivity | intros c []].
    - destruct Hq as [e ->]. reflexivity. }
  destruct (choose_spec (bic_quality s) entries ns Ht) as [Hnone Hsome].
  split.
  - intros Hall. apply Hnone. intros n Hn. apply Hall, range_In, Hn.
  - intros (n0 & Hn0 & Hq0).
    destruct Hsome as (n & q & m & Hn & Hq & Hsel & Hmax).
    { exists n0. split; [apply range_In; exact Hn0 | exact Hq0]. }
    apply range_In in Hn.
    pose proof Hq as Hq'. unfold bic_quality, fit_and_score in Hq'.
    destruct (GaussianHMM_fit n (random_state s) (X s) (lengths s)) as [m1|] eqn:Ef;
      [|discriminate].
    destruct (score m1 (X s) (lengths s)) as [logL|] eqn:Es; [|discriminate].
    inversion Hq'; subst q m.
    exists n, logL, m1. repeat split; try assumption; try lia.
    intros n' q' m' Hn' E'. eapply Hmax; [apply range_In; exact Hn' | exact E'].
Qed.

(** *** SelectorCV: one fold *)

Lemma cv_fold_run (n : Z) (split : list nat * list nat) (f : Frame) :
  cv_fold n split f =
  match combine_sequences (fst split) (sequences (self f)) with
  | Raise e => (Raise e, f)
  | Ok (X_train, lengths_train) =>
      let s1 := assign_X_lengths (self f) X_train lengths_train in
      match combine_sequences (snd split) (sequences (self f)) with
      | Raise e => (Raise e, mkFrame L s1 (model f) (cv_scores f) (n_state_scores f))
      | Ok (X_test, lengths_test) =>
          match GaussianHMM_fit n (random_state (self f)) X_train lengths_train with
          | Raise _ =>
              (Raise AttributeError,
               mkFrame L s1 (Some None) (cv_scores f) (n_state_scores f))
          | Ok m =>
              match score m X_test lengths_test with
              | Ok v => (Ok tt, mkFrame L s1 (Some (Some m)) (cv_scores f ++ [v])
                                        (n_state_scores f))
              | Raise e => (Raise e, mkFrame L s1 (Some (Some m)) (cv_scores f)
                                             (n_state_scores f))
              end
          end
      end
  end.
Proof.
  destruct split as [tr te]. unfold cv_fold, mbind, get, lift. cbn [fst snd].
  destruct (combine_sequences tr (sequences (self f))) as [[Xtr ltr]|e];
    [|reflexivity].
  cbn. destruct (combine_sequences te (sequences (self f))) as [[Xte lte]|e];
    [|reflexivity].
  rewrite base_model_eq. cbn.
  destruct (GaussianHMM_fit n (random_state (self f)) Xtr ltr) as [m|e];
    [|reflexivity].
  cbn. destruct (score m Xte lte); reflexivity.
Qed.

Lemma same_but_refl (s : ModelSelector) : same_but_X_lengths s s.
Proof. unfold same_but_X_lengths. repeat split. Qed.

Lemma same_but_assign (s s' : ModelSelector) X' lengths' :
  same_but_X_lengths s s' ->
  same_but_X_lengths s (assign_X_lengths s' X' lengths').
Proof. unfold same_but_X_lengths. cbn. tauto. Qed.

Lemma fold_eval_ext (s1 s2 : ModelSelector) n split :
  sequences s1 = sequences s2 -> random_state s1 = random_state s2 ->
  fold_eval s1 n split = fold_eval s2 n split.
Proof. intros H1 H2. unfold fold_eval. rewrite H1, H2. reflexivity. Qed.

Lemma all_folds_ext (s1 s2 : ModelSelector) n splits :
  sequences s1 = sequences s2 -> random_state s1 = random_state s2 ->
  all_folds s1 n splits = all_folds s2 n splits.
Proof.
  intros H1 H2. induction splits as [|sp r IH]; cbn; [reflexivity|].
  rewrite (fold_eval_ext s1 s2 n sp H1 H2), IH. reflexivity.
Qed.

(** One fold leaves the collected candidates alone and changes at most
    [X] and [lengths] of the object; it ends normally exactly when the
    fold evaluates, adding the held-out score and keeping the model. *)
Lemma cv_fold_spec (s : ModelSelector) (n : Z) split (f : Frame) :
  same_but_X_lengths s (self f) ->
  n_state_scores (snd (cv_fold n split f)) = n_state_scores f /\
  same_but_X_lengths s (self (snd (cv_fold n split f))) /\
  match fold_eval s n split with
  | Some (v, m) =>
      fst (cv_fold n split f) = Ok tt /\
      model (snd (cv_fold n split f)) = Some (Some m) /\
      cv_scores (snd (cv_fold n split f)) = cv_scores f ++ [v]
  | None => exists e, fst (cv_fold n split f) = Raise e
  end.
Proof.
  intros Hs. rewrite cv_fold_run. unfold fold_eval, fit_and_score.
  destruct Hs as (Hw & Hh & Hseq & Ht & Hc & Hmin & Hmax & Hrs & Hv).
  rewrite Hseq, Hrs.
  assert (Hsame : forall X' l', same_but_X_lengths s (assign_X_lengths (self f) X' l')).
  { intros. apply same_but_assign. unfold same_but_X_lengths. tauto. }
  destruct (combine_sequences (fst split) (sequences s)) as [[Xtr ltr]|e]; cbn.
  - destruct (combine_sequences (snd split) (sequences s)) as [[Xte lte]|e]; cbn.
    + destruct (GaussianHMM_fit n (random_state s) Xtr ltr) as [m|e]; cbn.
      * destruct (score m Xte lte) as [v|e]; cbn; repeat split; auto.
        eexists; reflexivity.
      * repeat split; auto. eexists; reflexivity.
    + repeat split; auto. eexists; reflexivity.
  - repeat split; try tauto. eexists; reflexivity.
Qed.

(** After a fold whose training indices are in range, [X] and [lengths]
    hold that fold's training concatenation. *)
Lemma cv_fold_assigns (n : Z) split (f : Frame) X_train lengths_train :
  combine_sequences (fst split) (sequences (self f)) = Ok (X_train, lengths_train) ->
  X (self (snd (cv_fold n split f))) = X_train /\
  lengths (self (snd (cv_fold n split f))) = lengths_train.
Proof.
  intros H. rewrite cv_fold_run, H. cbn.
  destruct (combine_sequences (snd split) (sequences (self f))) as [[Xte lte]|e]; cbn;
    [|split; reflexivity].
  destruct (GaussianHMM_fit n (random_state (self f)) X_train lengths_train) as [m|e];
    cbn; [|split; reflexivity].
  destruct (score m Xte lte); split; reflexivity.
Qed.

(** *** SelectorCV: the loop over the folds *)

Lemma last_cons_default {A} (l : list A) (a d : A) : List.last (a :: l) d = List.last l a.
Proof.
  revert a d. induction l as [|b l IH]; intros a d; [reflexivity|].
  change (List.last (a :: b :: l) d) with (List.last (b :: l) d).
  rewrite IH. symmetry. apply IH.
Qed.

Lemma fold_loop_spec (s : ModelSelector) (n : Z) (splits : list (list nat * list nat)) :
  forall f,
    same_but_X_lengths s (self f) ->
    n_state_scores (snd (for_each splits (cv_fold n) f)) = n_state_scores f /\
    same_but_X_lengths s (self (snd (for_each splits (cv_fold n) f))) /\
    match all_folds s n splits with
    | Some results =>
        fst (for_each splits (cv_fold n) f) = Ok tt /\
        cv_scores (snd (for_each splits (cv_fold n) f))
        = cv_scores f ++ map fst results /\
        model (snd (for_each splits (cv_fold n) f))
        = match results with
          | [] => model f
          | (v0, m0) :: rest => Some (Some (List.last (map snd rest) m0))
          end
    | None => exists e, fst (for_each splits (cv_fold n) f) = Raise e
    end.
Proof.
  induction splits as [|sp r IH]; intros f Hs.
  - cbn. rewrite app_nil_r. auto.
  - cbn [for_each all_folds]. unfold mbind.
    destruct (cv_fold_spec s n sp f Hs) as (H1 & H2 & H3).
    destruct (cv_fold n sp f) as [[[]|e] f1]; cbn [fst snd] in *.
    + specialize (IH f1 H2). destruct IH as (I1 & I2 & I3).
      rewrite I1, H1. split; [reflexivity|]. split; [exact I2|].
      destruct (fold_eval s n sp) as [[v m]|]; [|destruct H3; discriminate].
      destruct H3 as (_ & Hm & Hc).
      destruct (all_folds s n r) as [results|]; [|exact I3].
      destruct I3 as (J1 & J2 & J3). split; [exact J1|].
      split.
      * rewrite J2, Hc, <- app_assoc. reflexivity.
      * rewrite J3. destruct results as [|[v0 m0] rest]; [exact Hm|].
        cbn [map snd]. rewrite last_cons_default. reflexivity.
    + split; [exact H1|]. split; [exact H2|].
      destruct (fold_eval s n sp) as [[v m]|].
      * destruct H3 as [H3 _]. discriminate.
      * eexists; reflexivity.
Qed.

Lemma all_folds_nil_inv (s : ModelSelector) (n : Z) splits :
  all_folds s n splits = Some [] -> splits = [].
Proof.
  destruct splits as [|sp r]; [reflexivity|]. cbn.
  destruct (fold_eval s n sp); [|discriminate].
  destruct (all_folds s n r); discriminate.
Qed.

(** The object after the fold loop over folds whose training indices are
    in range holds the training concatenation of the fold at which the
    loop stopped. *)
Lemma fold_loop_assigns (s : ModelSelector) (n : Z) :
  forall rest sp f,
    same_but_X_lengths s (self f) ->
    (forall x, In x (sp :: rest) ->
               exists Xl, combine_sequences (fst x) (sequences s) = Ok Xl) ->
    combine_sequences (fst (last_evaluated s n sp rest)) (sequences s)
    = Ok (X (self (snd (for_each (sp :: rest) (cv_fold n) f))),
          lengths (self (snd (for_each (sp :: rest) (cv_fold n) f)))).
Proof.
  induction rest as [|next r IH]; intros sp f Hs Hvalid.
  - cbn [last_evaluated for_each]. unfold mbind.
    destruct (Hvalid sp (or_introl eq_refl)) as [[Xtr ltr] Hc].
    assert (Hseq : sequences (self f) = sequences s) by (destruct Hs; tauto).
    pose proof (cv_fold_assigns n sp f Xtr ltr) as Ha.
    rewrite Hseq in Ha. destruct (Ha Hc) as [HX Hl].
    destruct (cv_fold n sp f) as [[[]|e] f1]; cbn in *; rewrite Hc, HX, Hl; reflexivity.
  - cbn [last_evaluated]. change (for_each (sp :: next :: r) (cv_fold n) f)
      with (mbind (cv_fold n sp) (fun _ => for_each (next :: r) (cv_fold n)) f).
    unfold mbind.
    destruct (cv_fold_spec s n sp f Hs) as (_ & H2 & H3).
    destruct (Hvalid sp (or_introl eq_refl)) as [[Xtr ltr] Hc].
    assert (Hseq : sequences (self f) = sequences s) by (destruct Hs; tauto).
    pose proof (cv_fold_assigns n sp f Xtr ltr) as Ha.
    rewrite Hseq in Ha. destruct (Ha Hc) as [HX Hl].
    destruct (cv_fold n sp f) as [[[]|e] f1]; cbn [fst snd] in *.
    + destruct (fold_eval s n sp) as [[v m]|]; [|destruct H3; discriminate].
      apply IH; [exact H2|]. intros x Hx. apply Hvalid. right. exact Hx.
    + destruct (fold_eval s n sp) as [[v m]|]; [destruct H3; discriminate|].
      rewrite Hc, HX, Hl. reflexivity.
Qed.

(** *** SelectorCV: one candidate *)

Lemma cv_try_lt3 sm (n : Z) (f : Frame) :
  (len (sequences (self f)) <? 3) = true ->
  cv_try sm n f =
  match GaussianHMM_fit n (random_state (self f)) (X (self f)) (lengths (self f)) with
  | Raise _ =>
      (Raise AttributeError, mkFrame L (self f) (Some None) [] (n_state_scores f))
  | Ok m =>
      match score m (X (self f)) (lengths (self f)) with
      | Ok v =>
          (Ok tt, mkFrame L (self f) (Some (Some m)) []
                          ((n_state_scores f ++ [(v, Some m)])
                             ++ [(np_mean [], Some m)]))
      | Raise e =>
          (Raise e, mkFrame L (self f) (Some (Some m)) [] (n_state_scores f))
      end
  end.
Proof.
  intros E. unfold cv_try, mbind, get, lift, assign_cv_scores. cbn. rewrite E.
  rewrite base_model_eq. cbn.
  destruct (GaussianHMM_fit n (random_state (self f)) (X (self f)) (lengths (self f)))
    as [m|e]; [|reflexivity].
  cbn. destruct (score m (X (self f)) (lengths (self f))); reflexivity.
Qed.

Lemma cv_try_ge3 sm (n : Z) (f : Frame) :
  (len (sequences (self f)) <? 3) = false ->
  cv_try sm n f =
  let f0 := mkFrame L (self f) (model f) [] (n_state_scores f) in
  match sm (sequences (self f)) with
  | Raise e => (Raise e, f0)
  | Ok splits =>
      match for_each splits (cv_fold n) f0 with
      | (Raise e, f') => (Raise e, f')
      | (Ok _, f') =>
          match model f' with
          | Some m =>
              (Ok tt, mkFrame L (self f') (model f') (cv_scores f')
                              (n_state_scores f' ++ [(np_mean (cv_scores f'), m)]))
          | None => (Raise UnboundLocalError, f')
          end
      end
  end.
Proof.
  intros E. unfold cv_try, mbind, get, lift, assign_cv_scores. cbn. rewrite E.
  destruct (sm (sequences (self f))) as [splits|e]; [|reflexivity].
  destruct (for_each splits (cv_fold n) _) as [[[]|e] f']; [|reflexivity].
  unfold read_model, append_n_state_scores.
  destruct (model f') eqn:Em; cbn; rewrite ?Em; reflexivity.
Qed.

(** One pass of the loop over the candidates raises nothing, keeps the
    invariant, and appends the entries of the candidate. *)
Lemma cv_try_step (s : ModelSelector) (n : Z) (f : Frame) :
  cv_invariant s f ->
  let r := try_ (cv_try (KFold_split (random_state s)) n) (fun _ => ret tt) f in
  fst r = Ok tt /\ cv_invariant s (snd r) /\
  n_state_scores (snd r) = n_state_scores f ++ cv_entries s n.
Proof.
  intros (Hs & Hlt & Hnf). unfold try_, cv_entries, cv_quality.
  assert (Hseq : sequences (self f) = sequences s) by (destruct Hs; tauto).
  assert (Hrs : random_state (self f) = random_state s) by (destruct Hs; tauto).
  destruct (len (sequences s) <? 3) eqn:E.
  - specialize (Hlt eq_refl). rewrite cv_try_lt3 by (rewrite Hseq; exact E).
    rewrite Hlt. unfold fit_and_score.
    assert (Hinv : forall mv sc nss, cv_invariant s (mkFrame L s mv sc nss)).
    { intros. split; [apply same_but_refl|]. split; [reflexivity|].
      intros [E' _]. congruence. }
    destruct (GaussianHMM_fit n (random_state s) (X s) (lengths s)) as [m|e]; cbn.
    + destruct (score m (X s) (lengths s)) as [v|e]; cbn.
      * split; [reflexivity|]. split; [apply Hinv|].
        rewrite <- app_assoc. reflexivity.
      * split; [reflexivity|]. split; [apply Hinv|]. rewrite app_nil_r. reflexivity.
    + split; [reflexivity|]. split; [apply Hinv|]. rewrite app_nil_r. reflexivity.
  - rewrite cv_try_ge3 by (rewrite Hseq; exact E). cbv zeta. rewrite Hseq.
    destruct (KFold_split (random_state s) (sequences s)) as [splits|e] eqn:Ek; cbn.
    + set (f0 := mkFrame L (self f) (model f) [] (n_state_scores f)).
      destruct (fold_loop_spec s n splits f0 Hs) as (H1 & H2 & H3).
      destruct (for_each splits (cv_fold n) f0) as [[[]|e] f'] eqn:Ef;
        cbn [fst snd] in *.
      * destruct (all_folds s n splits) as [results|] eqn:Ea;
          [|destruct H3; discriminate].
        destruct H3 as (_ & Hc & Hm). cbn in Hc.
        destruct results as [|[v0 m0] rest].
        -- apply all_folds_nil_inv in Ea. subst splits.
           assert (Hno : no_folds s) by (split; assumption).
           rewrite Hm. change (model f0) with (model f). rewrite (Hnf Hno). cbn.
           split; [reflexivity|]. split; [|rewrite H1, app_nil_r; reflexivity].
           split; [exact H2|]. split; [congruence|].
           intros _. rewrite Hm. apply Hnf, Hno.
        -- rewrite Hm. cbn [fst snd].
           split; [reflexivity|]. split.
           ++ split; [exact H2|]. split; [congruence|].
              intros [_ Hno]. rewrite Ek in Hno. inversion Hno; subst splits.
              discriminate.
           ++ cbn [n_state_scores]. rewrite H1, Hc. reflexivity.
      * unfold ret. cbn [fst snd].
        destruct (all_folds s n splits) as [results|] eqn:Ea;
          [destruct H3; discriminate|].
        split; [reflexivity|]. split; [|rewrite H1, app_nil_r; reflexivity].
        split; [exact H2|]. split; [congruence|].
        intros [_ Hno]. rewrite Ek in Hno. inversion Hno; subst splits.
        discriminate.
    + unfold ret. cbn [fst snd n_state_scores].
      split; [reflexivity|]. split; [|rewrite app_nil_r; reflexivity].
      split; [exact Hs|]. split; [congruence|].
      intros [_ Hno]. congruence.
Qed.

(** *** SelectorCV: the loop over the candidates *)

Lemma for_each_app {A} (l1 l2 : list A) (body : A -> M unit) (f : Frame) :
  for_each (l1 ++ l2) body f =
  match for_each l1 body f with
  | (Ok _, f') => for_each l2 body f'
  | (Raise e, f') => (Raise e, f')
  end.
Proof.
  revert f. induction l1 as [|x r IH]; intros f; [reflexivity|].
  cbn [app for_each]. unfold mbind.
  destruct (body x f) as [[[]|e] f1]; [apply IH | reflexivity].
Qed.

Lemma cv_loop_spec (s : ModelSelector) (ns : list Z) :
  forall f,
    cv_invariant s f ->
    let r := for_each ns (fun n => try_ (cv_try (KFold_split (random_state s)) n)
                                        (fun _ => ret tt)) f in
    fst r = Ok tt /\ cv_invariant s (snd r) /\
    n_state_scores (snd r) = n_state_scores f ++ flat_map (cv_entries s) ns.
Proof.
  induction ns as [|n ns IH]; intros f Hinv; cbv zeta.
  - cbn. rewrite app_nil_r. auto.
  - cbn [for_each flat_map]. unfold mbind.
    destruct (cv_try_step s n f Hinv) as (H1 & H2 & H3).
    destruct (try_ (cv_try (KFold_split (random_state s)) n) (fun _ => ret tt) f)
      as [[[]|e] f1]; cbn [fst snd] in *; [|discriminate].
    destruct (IH f1 H2) as (I1 & I2 & I3).
    split; [exact I1|]. split; [exact I2|].
    rewrite I3, H3, <- app_assoc. reflexivity.
Qed.

Lemma cv_invariant_init (s : ModelSelector) mv sc nss :
  mv = None -> cv_invariant s (mkFrame L s mv sc nss).
Proof.
  intros ->. split; [apply same_but_refl|]. split; reflexivity.
Qed.

(** [SelectorCV.select] chooses among the entries of the candidates of
    the range, and leaves the object as the loop left it. *)
Lemma SelectorCV_select_eq (s : ModelSelector) :
  SelectorCV_select s =
  (choose (flat_map (cv_entries s)
                    (range (min_n_components s) (max_n_components s + 1))),
   self (snd (for_each (range (min_n_components s) (max_n_components s + 1))
                       (fun n => try_ (cv_try (KFold_split (random_state s)) n)
                                      (fun _ => ret tt))
                       (mkFrame L s None [] [])))).
Proof.
  unfold SelectorCV_select, SelectorCV_run, mbind, get, assign_n_state_scores.
  cbn [self model cv_scores].
  destruct (cv_loop_spec s (range (min_n_components s) (max_n_components s + 1))
                         (mkFrame L s None [] [])
                         (cv_invariant_init s None [] [] eq_refl))
    as (H1 & _ & H3).
  destruct (for_each _ _ _) as [[[]|e] f'] eqn:Ef; cbn [fst snd] in *;
    [|discriminate].
  cbn in H3. rewrite <- H3. unfold choose, lift, ret.
  destruct (len (n_state_scores f') =? 0); [reflexivity|].
  destruct (py_max _ (n_state_scores f')); reflexivity.
Qed.

Lemma SelectorCV_select_frame (s : ModelSelector) :
  same_but_X_lengths s (snd (SelectorCV_select s)) /\
  ((len (sequences s) <? 3) = true -> snd (SelectorCV_select s) = s).
Proof.
  rewrite SelectorCV_select_eq. cbn [snd].
  destruct (cv_loop_spec s (range (min_n_components s) (max_n_components s + 1))
                         (mkFrame L s None [] [])
                         (cv_invariant_init s None [] [] eq_refl))
    as (_ & (H & H' & _) & _).
  split; assumption.
Qed.

Lemma cv_quality_ext (s1 s2 : ModelSelector) (n : Z) :
  sequences s1 = sequences s2 -> random_state s1 = random_state s2 ->
  ((len (sequences s1) <? 3) = true -> X s1 = X s2 /\ lengths s1 = lengths s2) ->
  cv_quality s1 n = cv_quality s2 n.
Proof.
  intros Hseq Hrs HX. unfold cv_quality. rewrite <- Hseq, <- Hrs.
  destruct (len (sequences s1) <? 3).
  - destruct (HX eq_refl) as [-> ->]. reflexivity.
  - destruct (KFold_split (random_state s1) (sequences s1)) as [splits|e];
      [|reflexivity].
    rewrite (all_folds_ext s1 s2 n splits Hseq Hrs). reflexivity.
Qed.

Lemma cv_entries_ext (s1 s2 : ModelSelector) (n : Z) :
  sequences s1 = sequences s2 -> random_state s1 = random_state s2 ->
  ((len (sequences s1) <? 3) = true -> X s1 = X s2 /\ lengths s1 = lengths s2) ->
  cv_entries s1 n = cv_entries s2 n.
Proof.
  intros Hseq Hrs HX. unfold cv_entries.
  rewrite (cv_quality_ext s1 s2 n Hseq Hrs HX), Hseq. reflexivity.
Qed.

Lemma flat_map_ext_all {A B} (f g : A -> list B) (l : list A) :
  (forall x, f x = g x) -> flat_map f l = flat_map g l.
Proof.
  intros H. induction l as [|x r IH]; cbn; [reflexivity|]. rewrite H, IH. reflexivity.
Qed.

Lemma flat_map_all_nil {A B} (f : A -> list B) (l : list A) :
  (forall x, f x = []) -> flat_map f l = [].
Proof.
  intros H. induction l as [|x r IH]; cbn; [reflexivity|]. rewrite H, IH. reflexivity.
Qed.

Lemma np_mean_nil_nan : is_nan (np_mean []) = true.
Proof. vm_compute. reflexivity. Qed.

Lemma cv_tracks (s : ModelSelector) (n : Z) :
  (forall q m, cv_quality s n = Some (q, m) -> not_nan q) ->
  tracks (cv_quality s) (cv_entries s) n.
Proof.
  intros Hreal. unfold tracks, cv_entries.
  destruct (cv_quality s n) as [[q m]|]; [|reflexivity].
  split; [apply (Hreal q m eq_refl)|].
  destruct (len (sequences s) <? 3).
  - exists [(np_mean [], Some m)]. split; [reflexivity|].
    intros c [<-|[]]. apply np_mean_nil_nan.
  - exists []. split; [reflexivity | intros c []].
Qed.

(** C3: [SelectorCV.select] returns nothing when every candidate of the
    range fails, and otherwise the model kept for a candidate of greatest
    quality.  Below three sequences the quality is the score of one fit on
    the selector's data with that fit as the model kept; from three
    sequences on it is the mean of the held-out scores of the folds, the
    model kept is the one fitted in the last fold, and a failure in any
    fold drops the candidate.  The qualities are numbers. *)
Theorem SelectorCV_select_spec (s : ModelSelector) :
  (forall n q m, min_n_components s <= n <= max_n_components s ->
                 cv_quality s n = Some (q, m) -> not_nan q) ->
  ((forall n, min_n_components s <= n <= max_n_components s ->
              cv_quality s n = None) ->
   fst (SelectorCV_select s) = Ok None) /\
  ((exists n, min_n_components s <= n <= max_n_components s /\
              cv_quality s n <> None) ->
   exists n q m,
     min_n_components s <= n <= max_n_components s /\
     cv_quality s n = Some (q, m) /\
     fst (SelectorCV_select s) = Ok (Some m) /\
     forall n' q' m',
       min_n_components s <= n' <= max_n_components s ->
       cv_quality s n' = Some (q', m') -> (q' <=? q)%float = true) /\
  (len (sequences s) < 3 ->
   forall n, cv_quality s n
             = fit_and_score n (random_state s) (X s) (lengths s) (X s) (lengths s)) /\
  (3 <= len (sequences s) ->
   forall n splits,
     KFold_split (random_state s) (sequences s) = Ok splits ->
     (forall results,
         all_folds s n splits = Some results -> results <> [] ->
         exists v0 m0 rest,
           results = (v0, m0) :: rest /\
           cv_quality s n = Some (np_mean (map fst results),
                                  List.last (map snd results) m0)) /\
     (all_folds s n splits = None -> cv_quality s n = None)).
Proof.
  intros Hreal. rewrite SelectorCV_select_eq. cbn [fst].
  set (ns := range (min_n_components s) (max_n_components s + 1)).
  assert (Ht : forall n, In n ns -> tracks (cv_quality s) (cv_entries s) n).
  { intros n Hn. apply range_In in Hn. apply cv_tracks.
    intros q m. apply Hreal. exact Hn. }
  destruct (choose_spec (cv_quality s) (cv_entries s) ns Ht) as [Hnone Hsome].
  split; [|split; [|split]].
  - intros Hall. apply Hnone. intros n Hn. apply Hall, range_In, Hn.
  - intros (n0 & Hn0 & Hq0).
    destruct Hsome as (n & q & m & Hn & Hq & Hsel & Hmax).
    { exists n0. split; [apply range_In; exact Hn0 | exact Hq0]. }
    exists n, q, m. apply range_In in Hn. repeat split; try assumption; try lia.
    intros n' q' m' Hn' E'. eapply Hmax; [apply range_In; exact Hn' | exact E'].
  - intros Hlt n. unfold cv_quality.
    destruct (Z.ltb_spec (len (sequences s)) 3); [reflexivity | lia].
  - intros Hge n splits Hk. unfold cv_quality.
    destruct (Z.ltb_spec (len (sequences s)) 3); [lia|]. rewrite Hk. split.
    + intros results -> Hne. destruct results as [|[v0 m0] rest]; [congruence|].
      exists v0, m0, rest. split; [reflexivity|].
      cbn [map snd]. rewrite last_cons_default. reflexivity.
    + intros ->. reflexivity.
Qed.

(** Without a candidate, or without an observation row, nothing is
    selected and nothing changes. *)
Lemma SelectorCV_select_empty_range (s : ModelSelector) :
  max_n_components s < min_n_components s ->
  SelectorCV_select s = (Ok None, s).
Proof.
  intros H. rewrite SelectorCV_select_eq, (range_empty _ _ H). reflexivity.
Qed.

Lemma SelectorBIC_select_no_rows (s : ModelSelector) :
  X s = [] -> SelectorBIC_select s = Ok None.
Proof.
  intros HX. rewrite SelectorBIC_select_choose, flat_map_all_nil; [reflexivity|].
  intros n. unfold bic_try. rewrite HX.
  destruct (base_model s n) as [m|e]; [|reflexivity]. cbn.
  destruct (call_score m [] (lengths s)); reflexivity.
Qed.

(** *** Every fit fails *)

Lemma fit_and_score_fails n rs Xtr ltr Xte lte :
  (forall n rs X l, exists e, GaussianHMM_fit n rs X l = Raise e) ->
  fit_and_score n rs Xtr ltr Xte lte = None.
Proof.
  intros Hfail. unfold fit_and_score.
  destruct (Hfail n rs Xtr ltr) as [e ->]. reflexivity.
Qed.

Lemma cv_quality_fails (s : ModelSelector) (n : Z) :
  (forall n rs X l, exists e, GaussianHMM_fit n rs X l = Raise e) ->
  cv_quality s n = None.
Proof.
  intros Hfail. unfold cv_quality.
  destruct (len (sequences s) <? 3); [apply fit_and_score_fails, Hfail|].
  destruct (KFold_split (random_state s) (sequences s)) as [[|sp r]|e];
    try reflexivity.
  cbn. unfold fold_eval.
  destruct (combine_sequences (fst sp) (sequences s)) as [[Xtr ltr]|]; [|reflexivity].
  destruct (combine_sequences (snd sp) (sequences s)) as [[Xte lte]|]; [|reflexivity].
  rewrite fit_and_score_fails by exact Hfail. reflexivity.
Qed.

(** C1: when the trainer fails for every requested state count,
    [select] returns [None] and raises nothing for [SelectorConstant],
    [SelectorBIC] and [SelectorCV]; for [SelectorDIC] it raises
    [NotImplementedError] instead. *)
Theorem select_when_every_fit_fails (s : ModelSelector) :
  (forall n rs X l, exists e, GaussianHMM_fit n rs X l = Raise e) ->
  fst (select SelectorConstant s) = Ok None /\
  fst (select SelectorBIC s) = Ok None /\
  fst (select SelectorCV s) = Ok None /\
  fst (select SelectorDIC s) = Raise NotImplementedError.
Proof.
  intros Hfail. cbn [select fst]. split; [|split; [|split]].
  - unfold SelectorConstant_select. rewrite base_model_eq.
    destruct (Hfail (n_constant s) (random_state s) (X s) (lengths s)) as [e ->].
    reflexivity.
  - rewrite SelectorBIC_select_choose, flat_map_all_nil; [reflexivity|].
    intros n. unfold bic_try. rewrite base_model_eq.
    destruct (Hfail n (random_state s) (X s) (lengths s)) as [e ->]. reflexivity.
  - rewrite SelectorCV_select_eq. cbn [fst].
    rewrite flat_map_all_nil; [reflexivity|].
    intros n. unfold cv_entries. rewrite cv_quality_fails by exact Hfail.
    reflexivity.
  - reflexivity.
Qed.

(** *** What [select] reads of the object *)

Lemma cv_inputs_inv (a b : ModelSelector) :
  cv_inputs a = cv_inputs b ->
  sequences a = sequences b /\ X a = X b /\ lengths a = lengths b /\
  min_n_components a = min_n_components b /\
  max_n_components a = max_n_components b /\
  random_state a = random_state b.
Proof.
  unfold cv_inputs. intros H. inversion H. repeat split; reflexivity.
Qed.

Lemma cv_inputs_assign (a b : ModelSelector) X' lengths' :
  cv_inputs a = cv_inputs b ->
  cv_inputs (assign_X_lengths a X' lengths')
  = cv_inputs (assign_X_lengths b X' lengths').
Proof.
  intros H. apply cv_inputs_inv in H.
  destruct H as (Hs & _ & _ & Hmin & Hmax & Hrs).
  unfold cv_inputs. cbn. rewrite Hs, Hmin, Hmax, Hrs. reflexivity.
Qed.

(** *** The fields [select] assigns *)

(** A fold changes at most [X] and [lengths] of the object. *)
Lemma cv_fold_same_but (n : Z) split (f : Frame) :
  same_but_X_lengths (self f) (self (snd (cv_fold n split f))).
Proof.
  rewrite cv_fold_run.
  destruct (combine_sequences (fst split) (sequences (self f))) as [[Xtr ltr]|e];
    [|apply same_but_refl].
  cbv zeta.
  destruct (combine_sequences (snd split) (sequences (self f))) as [[Xte lte]|e];
    [|apply same_but_assign, same_but_refl].
  destruct (GaussianHMM_fit n (random_state (self f)) Xtr ltr) as [m|e];
    [|apply same_but_assign, same_but_refl].
  destruct (score m Xte lte); apply same_but_assign, same_but_refl.
Qed.

(** While the splitter yields no fold, the loop over the candidates
    assigns nothing to the object. *)
Lemma cv_loop_no_fold (s : ModelSelector) (ns : list Z) :
  (len (sequences s) <? 3) = false ->
  (forall sp rest,
      KFold_split (random_state s) (sequences s) <> Ok (sp :: rest)) ->
  forall f,
    self f = s ->
    self (snd (for_each ns (fun n => try_ (cv_try (KFold_split (random_state s)) n)
                                          (fun _ => ret tt)) f)) = s.
Proof.
  intros Hge Hk.
  induction ns as [|n ns IH]; intros f Hf; [exact Hf|].
  cbn [for_each]. unfold mbind, try_.
  rewrite cv_try_ge3 by (rewrite Hf; exact Hge). cbv zeta. rewrite Hf.
  destruct (KFold_split (random_state s) (sequences s)) as [[|sp rest]|e] eqn:Ek.
  - cbn [for_each]. unfold ret at 1. cbn [model].
    destruct (model f); unfold ret; apply IH; reflexivity.
  - exfalso. apply (Hk sp rest). reflexivity.
  - unfold ret. apply IH. reflexivity.
Qed.

(** After [select] on a word of at least three sequences, a non-empty
    range and folds with training indices in range, [X] and [lengths] hold
    the training concatenation of the fold at which the fold loop of the
    last candidate stopped. *)
Lemma SelectorCV_select_last_fold (s : ModelSelector) sp rest :
  3 <= len (sequences s) ->
  min_n_components s <= max_n_components s ->
  KFold_split (random_state s) (sequences s) = Ok (sp :: rest) ->
  (forall x, In x (sp :: rest) ->
             exists Xl, combine_sequences (fst x) (sequences s) = Ok Xl) ->
  combine_sequences (fst (last_evaluated s (max_n_components s) sp rest))
                    (sequences s)
  = Ok (X (snd (SelectorCV_select s)), lengths (snd (SelectorCV_select s))).
Proof.
  intros Hge Hrange Hk Hvalid.
  rewrite SelectorCV_select_eq. cbn [snd].
  rewrite (range_last _ _ Hrange), for_each_app.
  destruct (cv_loop_spec s (range (min_n_components s) (max_n_components s))
                         (mkFrame L s None [] [])
                         (cv_invariant_init s None [] [] eq_refl))
    as (H1 & (Hs & _ & _) & _).
  destruct (for_each (range (min_n_components s) (max_n_components s)) _ _)
    as [[[]|e] f1]; cbn [fst snd] in *; [|discriminate].
  assert (Hseq : sequences (self f1) = sequences s) by (destruct Hs; tauto).
  assert (E : (len (sequences (self f1)) <? 3) = false).
  { rewrite Hseq. apply Z.ltb_ge. exact Hge. }
  cbn [for_each]. unfold mbind, try_.
  rewrite cv_try_ge3 by exact E. cbv zeta. rewrite Hseq, Hk.
  set (f0 := mkFrame L (self f1) (model f1) [] (n_state_scores f1)).
  pose proof (fold_loop_assigns s (max_n_components s) rest sp f0 Hs Hvalid) as Ha.
  destruct (for_each (sp :: rest) (cv_fold (max_n_components s)) f0)
    as [[[]|e] f'].
  - cbn [snd] in Ha. destruct (model f'); exact Ha.
  - exact Ha.
Qed.

(** C9: for a word of at least three sequences, no field of the
    selector other than [X] and [lengths] is changed by [select], and
    every pass of the fold loop assigns the training concatenation of its
    fold to [X] and [lengths].  When the range of candidates is not empty
    and the splitter yields at least one fold, with training indices in
    range, [X] and [lengths] hold after [select] the training
    concatenation of the fold at which the fold loop of the last candidate
    stopped.  When the range is empty, or the splitter yields no fold (it
    raises, or returns none), no fold is evaluated and [X] and [lengths]
    are the word's full observations as before. *)
Theorem SelectorCV_select_mutates (s : ModelSelector) :
  3 <= len (sequences s) ->
  same_but_X_lengths s (snd (SelectorCV_select s)) /\
  (forall n split f X_train lengths_train,
      combine_sequences (fst split) (sequences (self f))
      = Ok (X_train, lengths_train) ->
      X (self (snd (cv_fold n split f))) = X_train /\
      lengths (self (snd (cv_fold n split f))) = lengths_train) /\
  (forall sp rest,
      min_n_components s <= max_n_components s ->
      KFold_split (random_state s) (sequences s) = Ok (sp :: rest) ->
      (forall x, In x (sp :: rest) ->
                 exists Xl, combine_sequences (fst x) (sequences s) = Ok Xl) ->
      combine_sequences (fst (last_evaluated s (max_n_components s) sp rest))
                        (sequences s)
      = Ok (X (snd (SelectorCV_select s)), lengths (snd (SelectorCV_select s)))) /\
  (max_n_components s < min_n_components s \/
   (forall sp rest,
       KFold_split (random_state s) (sequences s) <> Ok (sp :: rest)) ->
   snd (SelectorCV_select s) = s).
Proof.
  intros Hge.
  split; [apply SelectorCV_select_frame|].
  split; [intros n split f Xtr ltr; apply cv_fold_assigns|].
  split; [intros sp rest; apply SelectorCV_select_last_fold; exact Hge|].
  intros [Hempty|Hk].
  - rewrite (SelectorCV_select_empty_range s Hempty). reflexivity.
  - rewrite SelectorCV_select_eq. cbn [snd].
    apply cv_loop_no_fold; [apply Z.ltb_ge; exact Hge | exact Hk | reflexivity].
Qed.

End Facts.

(** *** Determinism *)

(** Another run, whose trainer and splitter answer as those of this run
    when they are given the seed [rs], goes through [SelectorCV.select]
    in step with this run. *)
Section TwoRuns.
Context {L : Library}.
Variable fit' : Z -> Z -> Xmat -> list nat -> result Model.
Variable split' : Z -> list Xmat -> result (list (list nat * list nat)).
Variable rs : Z.
Hypothesis fit_seeded :
  forall n X l, fit' n rs X l = GaussianHMM_fit n rs X l.
Hypothesis split_seeded :
  forall seqs, split' rs seqs = KFold_split rs seqs.

Lemma frames_agree_mk (s s' : ModelSelector) mv sc nss :
  cv_inputs s' = cv_inputs s ->
  frames_agree fit' split' (mkFrame L s mv sc nss)
               (mkFrame (another_run fit' split') s' mv sc nss).
Proof. intros H. split; [exact H|]. repeat split. Qed.

Lemma cv_fold_runs (n : Z) split
      (f : @Frame L) (f' : @Frame (another_run fit' split')) :
  random_state (self f) = rs ->
  frames_agree fit' split' f f' ->
  fst (cv_fold n split f') = fst (cv_fold n split f) /\
  frames_agree fit' split' (snd (cv_fold n split f)) (snd (cv_fold n split f')).
Proof.
  intros Hrs (Hi & Hm & Hc & Hn).
  pose proof (cv_inputs_inv _ _ Hi) as (Hseq & _ & _ & _ & _ & Hrs').
  rewrite !cv_fold_run.
  rewrite Hseq, Hrs', Hrs, Hm, Hc, Hn.
  destruct (combine_sequences (fst split) (sequences (self f))) as [[Xtr ltr]|e].
  - cbv zeta.
    pose proof (cv_inputs_assign _ _ Xtr ltr Hi) as Hi'.
    destruct (combine_sequences (snd split) (sequences (self f))) as [[Xte lte]|e].
    + cbn [GaussianHMM_fit score another_run]. rewrite fit_seeded.
      destruct (GaussianHMM_fit n rs Xtr ltr) as [m|e].
      * destruct (score m Xte lte);
          (split; [reflexivity | apply frames_agree_mk; exact Hi']).
      * split; [reflexivity | apply frames_agree_mk; exact Hi'].
    + split; [reflexivity | apply frames_agree_mk; exact Hi'].
  - split; [reflexivity|]. split; [exact Hi|]. repeat split; assumption.
Qed.

Lemma fold_loop_runs (n : Z) (splits : list (list nat * list nat)) :
  forall (f : @Frame L) (f' : @Frame (another_run fit' split')),
    random_state (self f) = rs ->
    frames_agree fit' split' f f' ->
    fst (for_each splits (cv_fold n) f') = fst (for_each splits (cv_fold n) f) /\
    frames_agree fit' split' (snd (for_each splits (cv_fold n) f))
                 (snd (for_each splits (cv_fold n) f')).
Proof.
  induction splits as [|sp r IH]; intros f f' Hrs H.
  - cbn. split; [reflexivity | exact H].
  - cbn [for_each]. unfold mbind.
    destruct (cv_fold_runs n sp f f' Hrs H) as (E & Ha).
    assert (Hrs1 : random_state (self (snd (cv_fold n sp f))) = rs).
    { destruct (cv_fold_same_but n sp f) as (_ & _ & _ & _ & _ & _ & _ & -> & _).
      exact Hrs. }
    destruct (cv_fold n sp f) as [r1 g], (cv_fold n sp f') as [r1' g'].
    cbn [fst snd] in *. subst r1'. destruct r1 as [[]|e].
    + apply IH; assumption.
    + split; [reflexivity | exact Ha].
Qed.

Lemma cv_try_runs sm sm' (n : Z)
      (f : @Frame L) (f' : @Frame (another_run fit' split')) :
  (forall seqs, sm' seqs = sm seqs) ->
  random_state (self f) = rs ->
  frames_agree fit' split' f f' ->
  fst (try_ (cv_try sm' n) (fun _ => ret tt) f')
  = fst (try_ (cv_try sm n) (fun _ => ret tt) f) /\
  frames_agree fit' split' (snd (try_ (cv_try sm n) (fun _ => ret tt) f))
               (snd (try_ (cv_try sm' n) (fun _ => ret tt) f')).
Proof.
  intros Hsm Hrs H. pose proof H as (Hi & Hm & Hc & Hn).
  pose proof (cv_inputs_inv _ _ Hi) as (Hseq & HX & Hl & _ & _ & Hrs').
  unfold try_. destruct (len (sequences (self f)) <? 3) eqn:E.
  - rewrite !cv_try_lt3 by (rewrite ?Hseq; exact E).
    rewrite HX, Hl, Hrs', Hrs, Hn.
    cbn [GaussianHMM_fit score another_run]. rewrite fit_seeded.
    destruct (GaussianHMM_fit n rs (X (self f)) (lengths (self f))) as [m|e].
    + destruct (score m (X (self f)) (lengths (self f)));
        (split; [reflexivity | apply frames_agree_mk; exact Hi]).
    + split; [reflexivity | apply frames_agree_mk; exact Hi].
  - rewrite !cv_try_ge3 by (rewrite ?Hseq; exact E). cbv zeta.
    rewrite Hseq, Hsm, Hm, Hn.
    destruct (sm (sequences (self f))) as [splits|e].
    + pose proof (fold_loop_runs n splits
                    (mkFrame L (self f) (model f) [] (n_state_scores f))
                    (mkFrame (another_run fit' split') (self f') (model f) []
                             (n_state_scores f))
                    Hrs (frames_agree_mk _ _ _ _ _ Hi)) as (E' & Ha).
      destruct (for_each splits (cv_fold n)
                         (mkFrame L (self f) (model f) [] (n_state_scores f)))
        as [r1 h],
          (for_each splits (cv_fold n)
                    (mkFrame (another_run fit' split') (self f') (model f) []
                             (n_state_scores f)))
          as [r1' h'].
      cbn [fst snd] in *. subst r1'.
      destruct Ha as (Hi' & Hm' & Hc' & Hn').
      destruct r1 as [[]|e].
      * rewrite Hm'. destruct (model h) as [m|] eqn:Em.
        -- rewrite Hc', Hn'. cbn [fst snd].
           split; [reflexivity | apply frames_agree_mk; exact Hi'].
        -- unfold ret. cbn [fst snd].
           split; [reflexivity|]. split; [exact Hi'|].
           repeat split; congruence.
      * unfold ret. cbn [fst snd]. split; [reflexivity|]. split; [exact Hi'|].
        repeat split; assumption.
    + unfold ret. cbn [fst snd].
      split; [reflexivity | apply frames_agree_mk; exact Hi].
Qed.

Lemma cv_loop_runs (s : ModelSelector) (ns : list Z) :
  random_state s = rs ->
  forall (f : @Frame L) (f' : @Frame (another_run fit' split')),
    cv_invariant s f ->
    frames_agree fit' split' f f' ->
    frames_agree fit' split'
      (snd (for_each ns (fun n => try_ (cv_try (KFold_split rs) n)
                                       (fun _ => ret tt)) f))
      (snd (for_each ns (fun n => try_ (cv_try (split' rs) n)
                                       (fun _ => ret tt)) f')).
Proof.
  intros Hs. induction ns as [|n ns IH]; intros f f' Hinv H; [exact H|].
  cbn [for_each]. unfold mbind.
  assert (Hrs : random_state (self f) = rs).
  { destruct Hinv as ((_ & _ & _ & _ & _ & _ & _ & -> & _) & _). exact Hs. }
  destruct (cv_try_runs (KFold_split rs) (split' rs) n f f' split_seeded Hrs H)
    as (E & Ha).
  pose proof (cv_try_step s n f Hinv) as (Hok & Hinv' & _). rewrite Hs in Hok, Hinv'.
  destruct (try_ (cv_try (KFold_split rs) n) (fun _ => ret tt) f) as [r1 g],
           (try_ (cv_try (split' rs) n) (fun _ => ret tt) f') as [r1' g'].
  cbn [fst snd] in *. subst r1' r1. apply IH; assumption.
Qed.

(** The two runs return the same model and leave objects that agree on
    what [select] reads. *)
Lemma SelectorCV_select_runs (s1 s2 : ModelSelector) :
  random_state s1 = rs ->
  cv_inputs s2 = cv_inputs s1 ->
  fst (@SelectorCV_select (another_run fit' split') s2)
  = fst (@SelectorCV_select L s1) /\
  cv_inputs (snd (@SelectorCV_select (another_run fit' split') s2))
  = cv_inputs (snd (@SelectorCV_select L s1)).
Proof.
  intros Hs Hi.
  pose proof (cv_inputs_inv _ _ Hi) as (_ & _ & _ & Hmin & Hmax & Hrs).
  rewrite !SelectorCV_select_eq. cbn [fst snd].
  set (ns := range (min_n_components s1) (max_n_components s1 + 1)).
  rewrite Hmin, Hmax. fold ns.
  pose proof (cv_loop_spec s1 ns (mkFrame L s1 None [] [])
                           (cv_invariant_init s1 None [] [] eq_refl))
    as (_ & _ & H1).
  pose proof (@cv_loop_spec (another_run fit' split') s2 ns
                            (mkFrame (another_run fit' split') s2 None [] [])
                            (cv_invariant_init s2 None [] [] eq_refl))
    as (_ & _ & H2).
  cbv zeta in H1, H2. cbn [n_state_scores app] in H1, H2.
  pose proof (cv_loop_runs s1 ns Hs (mkFrame L s1 None [] [])
                           (mkFrame (another_run fit' split') s2 None [] [])
                           (cv_invariant_init s1 None [] [] eq_refl)
                           (frames_agree_mk _ _ _ _ _ Hi))
    as (Hi' & _ & _ & Hn').
  cbn [KFold_split another_run] in H2 |- *. rewrite Hrs, Hs in H2 |- *.
  rewrite Hs in H1.
  split; [|exact Hi'].
  rewrite H1, H2 in Hn'. rewrite Hn'. reflexivity.
Qed.

End TwoRuns.

Section Determinism.
Context {L : Library}.

(** C8: two runs of [SelectorCV.select] on the same corpus,
    hyperparameters and [random_state] choose the same candidate.  The
    second run has a trainer and a splitter of its own, which need answer
    as those of the first run only when they are given the seed
    [random_state]; the two objects need agree only on the sequences and
    observations of the word, the bounds of the range and the seed.  Then
    the second run returns the model the first run returns, and leaves in
    [X] and [lengths] the training part of the same fold; running it on
    the object the first run has left behind returns that model once
    more. *)
Theorem SelectorCV_select_deterministic (s1 s2 : ModelSelector)
        (fit' : Z -> Z -> Xmat -> list nat -> result Model)
        (split' : Z -> list Xmat -> result (list (list nat * list nat))) :
  cv_inputs s1 = cv_inputs s2 ->
  (forall n X l,
      fit' n (random_state s1) X l = GaussianHMM_fit n (random_state s1) X l) ->
  (forall seqs,
      split' (random_state s1) seqs = KFold_split (random_state s1) seqs) ->
  fst (@SelectorCV_select (another_run fit' split') s2)
  = fst (@SelectorCV_select L s1) /\
  cv_inputs (snd (@SelectorCV_select (another_run fit' split') s2))
  = cv_inputs (snd (@SelectorCV_select L s1)) /\
  fst (@SelectorCV_select (another_run fit' split')
                          (snd (@SelectorCV_select L s1)))
  = fst (@SelectorCV_select L s1).
Proof.
  intros Hi Hfit Hsplit.
  destruct (SelectorCV_select_runs fit' split' (random_state s1) Hfit Hsplit
                                   s1 s2 eq_refl (eq_sym Hi)) as (H1 & H2).
  split; [exact H1|]. split; [exact H2|].
  destruct (@SelectorCV_select_frame L s1) as [Hs Hlt].
  set (s' := snd (@SelectorCV_select L s1)) in *.
  destruct Hs as (_ & _ & Hseq' & _ & _ & Hmin' & Hmax' & Hrs' & _).
  rewrite <- Hrs' in Hfit, Hsplit.
  destruct (SelectorCV_select_runs fit' split' (random_state s') Hfit Hsplit
                                   s' s' eq_refl eq_refl) as (H3 & _).
  rewrite H3. rewrite !SelectorCV_select_eq. cbn [fst]. rewrite Hmin', Hmax'.
  f_equal. apply flat_map_ext_all. intros n.
  apply cv_entries_ext; auto.
  rewrite Hseq'. intros E. rewrite (Hlt E). split; reflexivity.
Qed.

End Determinism.

End SelectorFacts.

(* ================================================================== *)
(** ** The theorems on the sample data *)

Module Instances.
Import Py Ext PyFloat Recognizer Selectors Sample Views Sample2.
Import PyFloatFacts PyFacts RecognizerFacts SelectorFacts.

Lemma table_wf : dict_wf table.
Proof.
  unfold dict_wf, table. cbn.
  repeat constructor; cbn; intuition discriminate.
Defined.

Lemma table_scores_real :
  forall word model item v,
    In (word, model) table -> In item items ->
    @score stub model (fst item) (snd item) = Ok v -> not_nan v.
Proof.
  intros word model item v Hm Hi Hs. cbn in Hm, Hi.
  destruct Hm as [Hm|[Hm|[Hm|[]]]]; inversion Hm; subst word model;
    destruct Hi as [Hi|[Hi|[]]]; subst item;
      vm_compute in Hs; inversion Hs; reflexivity.
Defined.

Lemma recognize_profile_complete_witness :
  dict_wf table /\
  (table <> [] -> exists out, @recognize stub table items = Ok out) /\
  forall probabilities guesses,
    @recognize stub table items = Ok (probabilities, guesses) ->
    List.length probabilities = List.length items /\
    forall i item,
      nth_error items i = Some item ->
      exists profile,
        nth_error probabilities i = Some profile /\
        dict_keys profile = dict_keys table /\
        forall word model,
          dict_get table word = Some model ->
          match @score stub model (fst item) (snd item) with
          | Ok v => dict_get profile word = Some v
          | Raise _ => dict_get profile word = Some neg_infinity
          end.
Proof.
  split; [exact table_wf|].
  apply (@recognize_profile_complete stub table items). exact table_wf.
Defined.

Lemma recognize_guess_argmax_witness :
  dict_wf table /\
  (forall word model item v,
      In (word, model) table -> In item items ->
      @score stub model (fst item) (snd item) = Ok v -> not_nan v) /\
  (table <> [] -> exists out, @recognize stub table items = Ok out) /\
  forall probabilities guesses,
    @recognize stub table items = Ok (probabilities, guesses) ->
    List.length probabilities = List.length items /\
    List.length guesses = List.length items /\
    forall i item,
      nth_error items i = Some item ->
      exists profile guess v,
        nth_error probabilities i = Some profile /\
        nth_error guesses i = Some guess /\
        (forall word model, dict_get table word = Some model ->
                            dict_get profile word = Some (@recorded stub model item)) /\
        dict_get profile guess = Some v /\
        (forall word v', dict_get profile word = Some v' -> (v' <=? v)%float = true) /\
        (exists before after,
            dict_keys table = before ++ guess :: after /\
            forall word v', In word before -> dict_get profile word = Some v' ->
                            (v' <? v)%float = true) /\
        (v = neg_infinity ->
         forall word v', dict_get profile word = Some v' -> v' = neg_infinity).
Proof.
  split; [exact table_wf|]. split; [exact table_scores_real|].
  exact (@recognize_guess_argmax stub table items table_wf table_scores_real).
Defined.

Lemma recognize_empty_table_witness :
  @recognize stub [] items = Raise ValueError /\
  exists out, @recognize stub table items = Ok out.
Proof.
  destruct (@recognize_empty_table stub [] items) as [H _].
  destruct (@recognize_empty_table stub table items) as [_ H'].
  split; [apply H; [reflexivity | discriminate] | apply H'; discriminate].
Defined.

(** The selectors and the recognizer on the sample data. *)

Example sample_short_word_scores :
  map fst (n_state_scores
             (snd (@SelectorCV_run stub (mkFrame stub sample2 None [] []))))
  = [(-2)%float; nan; 2%float; nan; (-2)%float; nan].
Proof. vm_compute. reflexivity. Qed.

Example sample_short_word_select :
  @SelectorCV_select stub sample2 = (Ok (Some (4, 2%nat)), sample2).
Proof. vm_compute. reflexivity. Qed.

Example sample_cv_select :
  fst (@SelectorCV_select stub sample4) = Ok (Some (4, 3%nat)).
Proof. vm_compute. reflexivity. Qed.

Example sample_bic_select :
  @SelectorBIC_select stub sample4 = Ok (Some (6, 4%nat)).
Proof. vm_compute. reflexivity. Qed.

Example sample_constant_select :
  @SelectorConstant_select stub sample4 = Ok None.
Proof. vm_compute. reflexivity. Qed.

Example sample_recognize :
  @recognize stub table items
  = Ok ([[("A"%string, 1%float); ("B"%string, neg_infinity); ("C"%string, 1%float)];
         [("A"%string, 2%float); ("B"%string, neg_infinity); ("C"%string, 2%float)]],
        ["A"%string; "A"%string]).
Proof. vm_compute. reflexivity. Qed.

Lemma sample_range (n : Z) :
  2 <= n <= 6 -> n = 2 \/ n = 3 \/ n = 4 \/ n = 5 \/ n = 6.
Proof. lia. Defined.

Lemma sample4_bic_real :
  forall n q m, min_n_components sample4 <= n <= max_n_components sample4 ->
                @bic_quality stub sample4 n = Some (q, m) -> not_nan q.
Proof.
  intros n q m Hn H. apply sample_range in Hn.
  destruct Hn as [ -> | [ -> | [ -> | [ -> | -> ] ] ] ];
    vm_compute in H; inversion H; reflexivity.
Defined.

Lemma sample4_cv_real :
  forall n q m, min_n_components sample4 <= n <= max_n_components sample4 ->
                @cv_quality stub sample4 n = Some (q, m) -> not_nan q.
Proof.
  intros n q m Hn H. apply sample_range in Hn.
  destruct Hn as [ -> | [ -> | [ -> | [ -> | -> ] ] ] ];
    vm_compute in H; inversion H; reflexivity.
Defined.


Lemma select_when_every_fit_fails_witness :
  (forall n rs X l, exists e, @GaussianHMM_fit failing n rs X l = Raise e) /\
  fst (@select failing SelectorConstant sample4) = Ok None /\
  fst (@select failing SelectorBIC sample4) = Ok None /\
  fst (@select failing SelectorCV sample4) = Ok None /\
  fst (@select failing SelectorDIC sample4) = Raise NotImplementedError.
Proof.
  assert (H : forall n rs X l, exists e, @GaussianHMM_fit failing n rs X l = Raise e)
    by (intros; eexists; reflexivity).
  split; [exact H|]. exact (@select_when_every_fit_fails failing sample4 H).
Defined.

Lemma SelectorBIC_select_spec_witness :
  X sample4 <> [] /\
  (exists n, 2 <= n <= 6 /\ @bic_quality stub sample4 n <> None) /\
  exists n logL m,
    2 <= n <= 6 /\
    @GaussianHMM_fit stub n 14 (X sample4) (lengths sample4) = Ok m /\
    @score stub m (X sample4) (lengths sample4) = Ok logL /\
    @SelectorBIC_select stub sample4 = Ok (Some m) /\
    forall n' q' m',
      2 <= n' <= 6 ->
      @bic_quality stub sample4 n' = Some (q', m') ->
      (q' <=? @bic_value stub n (len (hd [] (X sample4))) (len (X sample4)) logL)%float
      = true.
Proof.
  assert (HX : X sample4 <> []) by discriminate.
  assert (Hex : exists n, 2 <= n <= 6 /\ @bic_quality stub sample4 n <> None).
  { exists 2. split; [lia | vm_compute; discriminate]. }
  split; [exact HX|]. split; [exact Hex|].
  destruct (@SelectorBIC_select_spec stub sample4 HX sample4_bic_real) as [_ H].
  destruct (H Hex) as (n & logL & m & Hn & Hf & Hs & _ & Hsel & Hmax).
  exists n, logL, m. repeat split; try assumption; apply Hn.
Defined.

Lemma SelectorCV_select_spec_witness :
  (exists n, 2 <= n <= 6 /\ @cv_quality stub sample4 n <> None) /\
  exists n q m,
    2 <= n <= 6 /\
    @cv_quality stub sample4 n = Some (q, m) /\
    fst (@SelectorCV_select stub sample4) = Ok (Some m) /\
    forall n' q' m',
      2 <= n' <= 6 ->
      @cv_quality stub sample4 n' = Some (q', m') -> (q' <=? q)%float = true.
Proof.
  assert (Hex : exists n, 2 <= n <= 6 /\ @cv_quality stub sample4 n <> None).
  { exists 2. split; [lia | vm_compute; discriminate]. }
  split; [exact Hex|].
  destruct (@SelectorCV_select_spec stub sample4 sample4_cv_real) as (_ & H & _).
  exact (H Hex).
Defined.

Lemma SelectorCV_select_deterministic_witness :
  cv_inputs sample4 = cv_inputs sample4_verbose /\
  other_split 0 (sequences sample4) <> @KFold_split stub 0 (sequences sample4) /\
  fst (@SelectorCV_select (@another_run stub other_fit other_split) sample4_verbose)
  = fst (@SelectorCV_select stub sample4) /\
  cv_inputs (snd (@SelectorCV_select (@another_run stub other_fit other_split)
                                     sample4_verbose))
  = cv_inputs (snd (@SelectorCV_select stub sample4)) /\
  fst (@SelectorCV_select (@another_run stub other_fit other_split)
                          (snd (@SelectorCV_select stub sample4)))
  = fst (@SelectorCV_select stub sample4).
Proof.
  split; [reflexivity|].
  split; [vm_compute; discriminate|].
  apply (@SelectorCV_select_deterministic stub sample4 sample4_verbose
                                          other_fit other_split).
  - reflexivity.
  - intros n X l. reflexivity.
  - intros seqs. reflexivity.
Defined.

Lemma Ok_pair_inj {A B} (a c : A) (b d : B) :
  Ok (a, b) = Ok (c, d) -> a = c /\ b = d.
Proof. intros H. injection H as H1 H2. split; assumption. Defined.

Lemma SelectorCV_select_mutates_witness :
  3 <= len (sequences sample4) /\
  @KFold_split stub 14 (sequences sample4)
  = Ok [([1; 2], [0; 3]); ([0; 2; 3], [1]); ([0; 1; 3], [2])]%nat /\
  same_but_X_lengths sample4 (snd (@SelectorCV_select stub sample4)) /\
  X (snd (@SelectorCV_select stub sample4)) = frame 1 ++ frame 2 ++ frame 4 /\
  X (snd (@SelectorCV_select stub sample4)) <> X sample4.
Proof.
  assert (Hlen : 3 <= len (sequences sample4)) by (vm_compute; discriminate).
  assert (Hrange : min_n_components sample4 <= max_n_components sample4)
    by (vm_compute; discriminate).
  assert (Hk : @KFold_split stub (random_state sample4) (sequences sample4)
               = Ok [([1; 2], [0; 3]); ([0; 2; 3], [1]); ([0; 1; 3], [2])]%nat)
    by (vm_compute; reflexivity).
  assert (Hvalid : forall x,
             In x [([1; 2], [0; 3]); ([0; 2; 3], [1]); ([0; 1; 3], [2])]%nat ->
             exists Xl, combine_sequences (fst x) (sequences sample4) = Ok Xl).
  { intros x [<-|[<-|[<-|[]]]]; eexists; vm_compute; reflexivity. }
  destruct (@SelectorCV_select_mutates stub sample4 Hlen) as (Hsame & _ & Hlast & _).
  pose proof (Hlast _ _ Hrange Hk Hvalid) as HX.
  split; [exact Hlen|]. split; [exact Hk|]. split; [exact Hsame|].
  assert (Hc : combine_sequences
                 (fst (@last_evaluated stub sample4 (max_n_components sample4)
                                       ([1; 2], [0; 3])
                                       [([0; 2; 3], [1]); ([0; 1; 3], [2])])%nat)
                 (sequences sample4)
               = Ok (frame 1 ++ frame 2 ++ frame 4, [1; 1; 1]%nat))
    by (vm_compute; reflexivity).
  rewrite Hc in HX. apply Ok_pair_inj in HX. destruct HX as [HX' Hl'].
  rewrite <- HX'. split; [reflexivity|].
  intros E. apply (f_equal (@List.length _)) in E. vm_compute in E. discriminate.
Defined.

(** The four-sequence word with a splitter of five folds: the splitter
    refuses, no fold is evaluated, and after [select] the selector's [X]
    and [lengths] are still the word's full observations, which are the
    training concatenation of no fold. *)
Lemma SelectorCV_select_mutates_counterexample :
  3 <= len (sequences sample4) /\
  @SelectorCV_select stub5 sample4 = (Ok None, sample4) /\
  X (snd (@SelectorCV_select stub5 sample4)) = List.concat (sequences sample4) /\
  lengths (snd (@SelectorCV_select stub5 sample4))
  = map (@List.length _) (sequences sample4) /\
  ~ (exists splits split,
        @KFold_split stub5 (random_state sample4) (sequences sample4) = Ok splits /\
        In split splits /\
        combine_sequences (fst split) (sequences sample4)
        = Ok (X (snd (@SelectorCV_select stub5 sample4)),
              lengths (snd (@SelectorCV_select stub5 sample4)))).
Proof.
  assert (E : @SelectorCV_select stub5 sample4 = (Ok None, sample4))
    by (vm_compute; reflexivity).
  split; [vm_compute; discriminate|]. split; [exact E|].
  rewrite E. cbn [snd]. split; [reflexivity|]. split; [reflexivity|].
  intros (splits & split & Hk & _). vm_compute in Hk. discriminate Hk.
Defined.

End Instances.

(* ================================================================== *)
(** ** More about [max], ranges and flattened lists *)

Module MoreFacts.
Import Py PyFloat PyFloatFacts PyFacts.

Lemma nan_ltb (v k : float) : is_nan v = true -> (v <? k)%float = false.
Proof.
  intros Hv. rewrite ltb_spec. unfold SFltb.
  destruct (Prim2SF v) as [s|s| |s m e] eqn:E; try reflexivity;
    exfalso;
    assert (Hn : not_nan v) by (apply not_nan_spec; rewrite E; discriminate);
    unfold not_nan in Hn; congruence.
Qed.

Lemma range_In_lt (a c n : Z) : In n (range a c) <-> a <= n < c.
Proof.
  unfold range. rewrite in_map_iff. split.
  - intros [i [<- Hi]]. apply in_seq in Hi. lia.
  - intros H. exists (Z.to_nat (n - a)). split; [lia|].
    apply in_seq. lia.
Qed.

Lemma range_cons (a c : Z) : a < c -> range a c = a :: range (a + 1) c.
Proof.
  intros H. unfold range.
  replace (Z.to_nat (c - a)) with (S (Z.to_nat (c - (a + 1)))) by lia.
  rewrite <- cons_seq, <- seq_shift. cbn [map]. rewrite map_map.
  f_equal; [lia|]. apply map_ext. intros i. lia.
Qed.

Lemma range_nil (a c : Z) : c <= a -> range a c = [].
Proof.
  intros H. unfold range. replace (Z.to_nat (c - a)) with 0%nat by lia. reflexivity.
Qed.

(** A range is increasing: what stands before [n] is what is below it. *)
Lemma range_before (c : Z) (ns1 : list Z) :
  forall a n ns2,
    range a c = ns1 ++ n :: ns2 ->
    forall n', In n' ns1 <-> a <= n' < n.
Proof.
  induction ns1 as [|x ns1 IH]; intros a n ns2 H n'.
  - destruct (Z.lt_ge_cases a c) as [Hlt|Hge].
    + rewrite (range_cons a c Hlt) in H. inversion H; subst. cbn. lia.
    + rewrite (range_nil a c) in H by lia. discriminate.
  - destruct (Z.lt_ge_cases a c) as [Hlt|Hge].
    + rewrite (range_cons a c Hlt) in H. inversion H as [[Hx Hr]]. subst x.
      assert (Hn : In n (range (a + 1) c)).
      { rewrite Hr. apply in_or_app. right. left. reflexivity. }
      apply range_In_lt in Hn.
      specialize (IH (a + 1) n ns2 Hr n'). cbn. rewrite IH. lia.
    + rewrite (range_nil a c) in H by lia. discriminate.
Qed.

Lemma range_split_fuel (k : nat) :
  forall a n c,
    Z.to_nat (n - a) = k -> a <= n < c ->
    range a c = range a n ++ n :: range (n + 1) c.
Proof.
  induction k as [|k IH]; intros a n c Hk H.
  - assert (n = a) by lia. subst n.
    rewrite (range_nil a a) by lia. rewrite (range_cons a c) by lia. reflexivity.
  - rewrite (range_cons a c), (range_cons a n) by lia.
    rewrite (IH (a + 1) n c) by lia. reflexivity.
Qed.

Lemma range_split (a n c : Z) :
  a <= n < c -> range a c = range a n ++ n :: range (n + 1) c.
Proof. apply (range_split_fuel (Z.to_nat (n - a))). reflexivity. Qed.

Lemma flat_map_split {A B} (f : A -> list B) (l : list A) :
  forall l1 c l2,
    flat_map f l = l1 ++ c :: l2 ->
    exists xs1 x xs2 pre post,
      l = xs1 ++ x :: xs2 /\ f x = pre ++ c :: post /\
      l1 = flat_map f xs1 ++ pre /\ l2 = post ++ flat_map f xs2.
Proof.
  induction l as [|x r IH]; intros l1 c l2 H.
  - destruct l1; discriminate.
  - cbn in H. apply app_eq_app in H. destruct H as [t [[H1 H2]|[H1 H2]]].
    + destruct t as [|c' t].
      * cbn in H2. rewrite app_nil_r in H1.
        destruct (IH [] c l2 (eq_sym H2)) as (xs1 & y & xs2 & pre & post & E & Ef & E1 & E2).
        exists (x :: xs1), y, xs2, pre, post. cbn. rewrite E.
        repeat split; try assumption.
        rewrite H1, <- app_assoc, <- E1, app_nil_r. reflexivity.
      * inversion H2; subst.
        exists [], x, r, l1, t. cbn. auto.
    + destruct (IH t c l2 H2) as (xs1 & y & xs2 & pre & post & E & Ef & E1 & E2).
      exists (x :: xs1), y, xs2, pre, post. cbn. rewrite E.
      repeat split; try assumption.
      rewrite H1, E1, app_assoc. reflexivity.
Qed.

Section MaxMore.
Context {A : Type} (key : A -> result float).

Lemma max_loop_In (l : list A) :
  forall best bk r, max_loop key best bk l = Ok r -> r = best \/ In r l.
Proof.
  induction l as [|x l IH]; intros best bk r H; cbn in H.
  - inversion H. left. reflexivity.
  - destruct (key x) as [k|e]; cbn in H; [|discriminate].
    destruct (bk <? k)%float.
    + apply IH in H. destruct H as [->|H]; right; [left; reflexivity | right; exact H].
    + apply IH in H. destruct H as [->|H]; [left; reflexivity | right; right; exact H].
Qed.

Lemma py_max_In (l : list A) (r : A) : py_max key l = Ok r -> In r l.
Proof.
  destruct l as [|x l]; cbn; [discriminate|].
  destruct (key x) as [k|e]; cbn; [|discriminate].
  intros H. apply max_loop_In in H. destruct H as [->|H]; [left | right]; auto.
Qed.

(** The first item stays the maximum when no later key is [>] its key. *)
Lemma max_loop_keep (l : list A) (best : A) (bk : float) :
  (forall x, In x l -> exists v, key x = Ok v /\ gtb v bk = false) ->
  max_loop key best bk l = Ok best.
Proof.
  induction l as [|x l IH]; intros H; cbn; [reflexivity|].
  destruct (H x (or_introl eq_refl)) as (v & Hv & Hg).
  rewrite Hv. cbn [bind]. unfold gtb in Hg. unfold gtb. rewrite Hg.
  apply IH. intros y Hy. apply H. right. exact Hy.
Qed.

Lemma py_max_keep (x : A) (l : list A) (bk : float) :
  key x = Ok bk ->
  (forall y, In y l -> exists v, key y = Ok v /\ gtb v bk = false) ->
  py_max key (x :: l) = Ok x.
Proof. intros Hx H. cbn. rewrite Hx. cbn. apply max_loop_keep, H. Qed.

End MaxMore.
End MoreFacts.

(* ================================================================== *)
(** ** More about the recognizer *)

Module RecognizerMore.
Import Py Ext PyFloat PyFloatFacts PyFacts Recognizer RecognizerFacts Views MoreFacts.

Section Facts.
Context {L : Library}.

Lemma recognize_item_step (models : dict Model) (test_set : SinglesData) acc i item :
  nth_error test_set i = Some item ->
  recognize_item models test_set acc i = recognize_step models acc item.
Proof.
  intros H. unfold recognize_item, recognize_step, get_item_Xlengths.
  rewrite H. destruct acc as [probabilities guesses], item as [sequence lengths].
  reflexivity.
Qed.

Lemma recognize_loop_items (models : dict Model) :
  forall rest pre acc,
    recognize_loop models (pre ++ rest)
                   (seq (List.length pre) (List.length rest)) acc
    = recognize_items models rest acc.
Proof.
  induction rest as [|item rest IH]; intros pre acc; [reflexivity|].
  cbn [List.length seq recognize_loop recognize_items].
  rewrite (recognize_item_step models (pre ++ item :: rest) acc (List.length pre) item)
    by (rewrite nth_error_app2, Nat.sub_diag by lia; reflexivity).
  destruct (recognize_step models acc item) as [acc'|e]; [|reflexivity].
  cbn [bind].
  replace (pre ++ item :: rest) with ((pre ++ [item]) ++ rest)
    by (rewrite <- app_assoc; reflexivity).
  replace (S (List.length pre)) with (List.length (pre ++ [item]))
    by (rewrite length_app; cbn; lia).
  apply IH.
Qed.

Lemma recognize_as_fold (models : dict Model) (test_set : SinglesData) :
  recognize models test_set = recognize_items models test_set ([], []).
Proof. apply (recognize_loop_items models test_set []). Qed.

Lemma recognize_items_app (models : dict Model) (l1 l2 : list (Xmat * list nat)) :
  forall acc,
    recognize_items models (l1 ++ l2) acc
    = bind (recognize_items models l1 acc) (recognize_items models l2).
Proof.
  induction l1 as [|item l1 IH]; intros acc; [reflexivity|].
  cbn [app recognize_items].
  destruct (recognize_step models acc item) as [acc'|e]; [apply IH | reflexivity].
Qed.

(** The accumulated lists only grow at their ends: a run from any
    accumulator is the run from the empty one, appended. *)
Lemma recognize_items_acc (models : dict Model) (l : list (Xmat * list nat)) :
  forall acc,
    recognize_items models l acc
    = bind (recognize_items models l ([], []))
           (fun r => Ok (fst acc ++ fst r, snd acc ++ snd r)).
Proof.
  induction l as [|item l IH]; intros [pa ga].
  - cbn. rewrite !app_nil_r. reflexivity.
  - cbn [recognize_items]. unfold recognize_step. cbn [fst snd app].
    destruct (py_max _ _) as [g|e]; [|reflexivity].
    cbn [bind]. rewrite IH. rewrite (IH ([_], [g])).
    destruct (recognize_items models l ([], [])) as [[p' g']|e]; [|reflexivity].
    cbn. rewrite <- !app_assoc. reflexivity.
Qed.

(** X1: [recognize] treats the test items one by one: on two test sets
    put end to end it returns the two results put end to end, and it
    raises exactly when one of the two runs raises (the first one first).
    In particular the empty test set gives two empty lists. *)
Theorem recognize_app (models : dict Model) (ts1 ts2 : SinglesData) :
  recognize models (ts1 ++ ts2)
  = bind (recognize models ts1)
         (fun r1 => bind (recognize models ts2)
                         (fun r2 => Ok (fst r1 ++ fst r2, snd r1 ++ snd r2))) /\
  recognize models [] = Ok ([], []).
Proof.
  split; [|reflexivity].
  rewrite !recognize_as_fold, recognize_items_app.
  destruct (recognize_items models ts1 ([], [])) as [r1|e]; [|reflexivity].
  cbn [bind]. apply recognize_items_acc.
Qed.

(** *** The guesses are words of the table *)

Lemma dict_set_keys {V} (d : dict V) (k k' : string) (v : V) :
  In k (dict_keys (dict_set d k' v)) -> k = k' \/ In k (dict_keys d).
Proof.
  induction d as [|[k0 v0] r IH]; cbn.
  - intros [H|[]]. left. auto.
  - destruct (String.eqb_spec k' k0) as [->|Hne]; cbn.
    + intros [H|H]; [left | right; right]; auto.
    + intros [H|H]; [right; left; exact H|].
      apply IH in H. destruct H; [left | right; right]; auto.
Qed.

Lemma fold_score_word_keys (models : dict Model) sequence lengths :
  forall acc k,
    In k (dict_keys (fold_left (score_word sequence lengths) models acc)) ->
    In k (dict_keys acc) \/ In k (dict_keys models).
Proof.
  induction models as [|[w m] r IH]; intros acc k H; [left; exact H|].
  cbn [fold_left] in H. apply IH in H. destruct H as [H|H].
  - rewrite score_word_set in H. apply dict_set_keys in H.
    destruct H as [->|H]; [right; left; reflexivity | left; exact H].
  - right. right. exact H.
Qed.

Lemma recognize_items_keys (models : dict Model) (l : list (Xmat * list nat)) :
  forall acc probabilities guesses,
    recognize_items models l acc = Ok (probabilities, guesses) ->
    List.length probabilities = (List.length (fst acc) + List.length l)%nat /\
    List.length guesses = (List.length (snd acc) + List.length l)%nat /\
    forall g, In g guesses -> In g (snd acc) \/ In g (dict_keys models).
Proof.
  induction l as [|item l IH]; intros [pa ga] probabilities guesses H.
  - cbn in H. inversion H; subst. cbn. repeat split; try lia. auto.
  - cbn [recognize_items] in H. unfold recognize_step in H. cbn [fst snd] in H.
    destruct (py_max _ _) as [g0|e] eqn:Eg; [|discriminate].
    cbn [bind] in H. apply IH in H. cbn [fst snd] in H.
    rewrite !length_app in H. cbn [List.length fst snd] in *.
    destruct H as (H1 & H2 & H3).
    split; [lia|]. split; [lia|].
    intros g Hg. apply H3 in Hg. destruct Hg as [Hg|Hg]; [|right; exact Hg].
    apply in_app_or in Hg. destruct Hg as [Hg|[<-|[]]]; [left; exact Hg|].
    right. apply py_max_In in Eg. apply fold_score_word_keys in Eg.
    destruct Eg as [[]|Eg]. exact Eg.
Qed.

(** X2: whatever the models score, also [nan], every guess that
    [recognize] returns is a word of the model table, and both returned
    lists have one entry per test item. *)
Theorem recognize_guess_in_table (models : dict Model) (test_set : SinglesData)
        probabilities guesses :
  recognize models test_set = Ok (probabilities, guesses) ->
  List.length probabilities = List.length test_set /\
  List.length guesses = List.length test_set /\
  forall g, In g guesses -> In g (dict_keys models).
Proof.
  rewrite recognize_as_fold. intros H. apply recognize_items_keys in H.
  destruct H as (H1 & H2 & H3). repeat split; try assumption.
  intros g Hg. destruct (H3 g Hg) as [[]|H]. exact H.
Qed.

(** *** When the first word keeps the maximum *)

(** The first word of the table is the guess for an item when no other
    word's recorded value is [>] its own. *)
Lemma guess_first (w0 : string) (m0 : Model) (rest : dict Model) item :
  dict_wf ((w0, m0) :: rest) ->
  (forall w m, In (w, m) rest ->
               gtb (recorded m item) (recorded m0 item) = false) ->
  is_guess ((w0, m0) :: rest) item w0.
Proof.
  intros Hwf H. unfold is_guess.
  set (models := (w0, m0) :: rest) in *.
  rewrite profile_of_keys. cbn [models dict_keys map fst].
  apply py_max_keep with (bk := recorded m0 item).
  - unfold dict_getitem.
    rewrite (profile_of_get models item w0 m0); [reflexivity|].
    cbn. rewrite String.eqb_refl. reflexivity.
  - intros y Hy. fold (dict_keys rest) in Hy.
    destruct (dict_get_key rest y Hy) as [m Hm].
    assert (Hin : In (y, m) rest) by (apply dict_get_In; exact Hm).
    exists (recorded m item). split; [|apply (H y m Hin)].
    unfold dict_getitem. rewrite (profile_of_get models item y m); [reflexivity|].
    cbn. destruct (String.eqb_spec y w0) as [->|Hne]; [|exact Hm].
    exfalso. unfold dict_wf in Hwf. cbn in Hwf. inversion Hwf as [|? ? Hnotin _].
    apply Hnotin. exact Hy.
Qed.

Lemma guess_at (models : dict Model) (test_set : SinglesData)
      probabilities guesses i item :
  dict_wf models ->
  recognize models test_set = Ok (probabilities, guesses) ->
  nth_error test_set i = Some item ->
  nth_error probabilities i = Some (profile_of models item) /\
  exists g, nth_error guesses i = Some g /\ is_guess models item g.
Proof.
  intros Hwf H Hi. apply recognize_spec in H; [|exact Hwf].
  destruct H as [-> HF]. split; [rewrite nth_error_map, Hi; reflexivity|].
  apply (Forall2_nth_error _ _ _ HF i item Hi).
Qed.

(** X3: when every model of the table fails to score an item, the guess
    for that item is the first word of the table, and every word's
    recorded value is negative infinity. *)
Theorem recognize_all_fail_first (w0 : string) (m0 : Model) (rest : dict Model)
        (test_set : SinglesData) probabilities guesses i item :
  dict_wf ((w0, m0) :: rest) ->
  recognize ((w0, m0) :: rest) test_set = Ok (probabilities, guesses) ->
  nth_error test_set i = Some item ->
  (forall w m, In (w, m) ((w0, m0) :: rest) ->
               exists e, score m (fst item) (snd item) = Raise e) ->
  nth_error guesses i = Some w0 /\
  nth_error probabilities i
  = Some (map (fun wm => (fst wm, neg_infinity)) ((w0, m0) :: rest)).
Proof.
  intros Hwf H Hi Hfail.
  assert (Hrec : forall w m, In (w, m) ((w0, m0) :: rest) ->
                             recorded m item = neg_infinity).
  { intros w m Hin. unfold recorded. destruct (Hfail w m Hin) as [e ->]. reflexivity. }
  destruct (guess_at _ _ _ _ i item Hwf H Hi) as (Hp & g & Hg & Hmax).
  split.
  - rewrite Hg. f_equal.
    assert (Hfirst : is_guess ((w0, m0) :: rest) item w0).
    { apply guess_first; [exact Hwf|]. intros w m Hin.
      rewrite (Hrec w m (or_intror Hin)), (Hrec w0 m0 (or_introl eq_refl)).
      reflexivity. }
    unfold is_guess in *. congruence.
  - rewrite Hp. f_equal. unfold profile_of. apply map_ext_in.
    intros [w m] Hin. cbn. rewrite (Hrec w m Hin). reflexivity.
Qed.

(** X4: when the first word's model scores an item [nan], that word is
    the guess for the item whatever the other words score: no value is
    [>] a [nan]. *)
Theorem recognize_nan_first (w0 : string) (m0 : Model) (rest : dict Model)
        (test_set : SinglesData) probabilities guesses i item v :
  dict_wf ((w0, m0) :: rest) ->
  recognize ((w0, m0) :: rest) test_set = Ok (probabilities, guesses) ->
  nth_error test_set i = Some item ->
  score m0 (fst item) (snd item) = Ok v -> is_nan v = true ->
  nth_error guesses i = Some w0.
Proof.
  intros Hwf H Hi Hs Hnan.
  destruct (guess_at _ _ _ _ i item Hwf H Hi) as (_ & g & Hg & Hmax).
  rewrite Hg. f_equal.
  assert (Hfirst : is_guess ((w0, m0) :: rest) item w0).
  { apply guess_first; [exact Hwf|]. intros w m Hin.
    unfold gtb, recorded at 1. rewrite Hs. apply nan_ltb, Hnan. }
  unfold is_guess in *. congruence.
Qed.

End Facts.
End RecognizerMore.

(* ================================================================== *)
(** ** More about the selectors *)

Module SelectorMore.
Import Py Ext PyFloat PyFloatFacts PyFacts Selectors ChoiceFacts SelectorFacts.
Import Views MoreFacts.

Section Facts.
Context {L : Library}.

(** *** Construction *)

(** X5: constructing a selector raises [KeyError] exactly when the word
    is missing from the mapping of sequences or from the mapping of
    observations, and otherwise gives the object whose sequences,
    observations and lengths are the word's entries. *)
Theorem ModelSelector_init_missing_word
        (all_word_sequences : dict (list Xmat))
        (all_word_Xlengths : dict (Xmat * list nat)) (word : string)
        (n_const min_n max_n rs : Z) (vb : bool) :
  (ModelSelector_init all_word_sequences all_word_Xlengths word
                      n_const min_n max_n rs vb = Raise KeyError <->
   ~ In word (dict_keys all_word_sequences) \/
   ~ In word (dict_keys all_word_Xlengths)) /\
  (forall e, ModelSelector_init all_word_sequences all_word_Xlengths word
                                n_const min_n max_n rs vb = Raise e ->
             e = KeyError) /\
  (forall s, ModelSelector_init all_word_sequences all_word_Xlengths word
                                n_const min_n max_n rs vb = Ok s ->
             dict_get all_word_sequences word = Some (sequences s) /\
             dict_get all_word_Xlengths word = Some (X s, lengths s) /\
             words s = all_word_sequences /\ hwords s = all_word_Xlengths /\
             this_word s = word /\ n_constant s = n_const /\
             min_n_components s = min_n /\ max_n_components s = max_n /\
             random_state s = rs /\ verbose s = vb).
Proof.
  unfold ModelSelector_init, dict_getitem.
  assert (Hkey : forall V (d : dict V),
             dict_get d word = None <-> ~ In word (dict_keys d)).
  { intros V d. split.
    - intros H Hin. destruct (dict_get_key d word Hin) as [v Hv]. congruence.
    - intros H. destruct (dict_get d word) as [v|] eqn:E; [|reflexivity].
      exfalso. apply H. apply dict_get_In in E.
      apply (in_map fst) in E. exact E. }
  rewrite <- !Hkey.
  destruct (dict_get all_word_sequences word) as [seqs|]; cbn.
  - destruct (dict_get all_word_Xlengths word) as [[X0 l0]|]; cbn.
    + split; [split; [discriminate | intros [H|H]; discriminate H]|].
      split; [intros e H; discriminate H|].
      intros s H. inversion H; subst s. cbn. repeat split.
    + split; [split; [right; reflexivity | reflexivity]|].
      split; [intros e H; inversion H; reflexivity | intros s H; discriminate H].
  - split; [split; [left; reflexivity | reflexivity]|].
    split; [intros e H; inversion H; reflexivity | intros s H; discriminate H].
Qed.

(** *** What [select] can return *)

Lemma choose_sound {A} (l : list (float * option A)) :
  exists r, choose l = Ok r /\
            (l = [] -> r = None) /\
            (l <> [] -> exists q, In (q, r) l).
Proof.
  destruct l as [|c l].
  - exists None. repeat split. congruence.
  - rewrite choose_cons.
    destruct (py_max_total (fun x : float * option A => Ok (fst x)) (c :: l))
      as [best Hbest]; [discriminate | intros; eexists; reflexivity |].
    rewrite Hbest. cbn. exists (snd best). split; [reflexivity|].
    split; [discriminate|]. intros _. exists (fst best).
    apply py_max_In in Hbest. destruct best. exact Hbest.
Qed.

Lemma flat_map_nil_inv {A B} (f : A -> list B) (l : list A) :
  flat_map f l = [] -> forall x, In x l -> f x = [].
Proof.
  induction l as [|a l IH]; cbn; intros H x Hx; [destruct Hx|].
  apply app_eq_nil in H. destruct H as [H1 H2].
  destruct Hx as [<-|Hx]; [exact H1 | apply IH; assumption].
Qed.

Lemma bic_try_Ok_inv (s : ModelSelector) (n : Z) q r :
  bic_try s n = Ok (q, r) ->
  exists m logL,
    r = Some m /\
    GaussianHMM_fit n (random_state s) (X s) (lengths s) = Ok m /\
    score m (X s) (lengths s) = Ok logL /\ X s <> [] /\
    q = bic_value n (len (hd [] (X s))) (len (X s)) logL.
Proof.
  unfold bic_try. rewrite base_model_eq. cbn [bind].
  destruct (GaussianHMM_fit n (random_state s) (X s) (lengths s)) as [m|e] eqn:Ef;
    cbn [bind call_score]; [|discriminate].
  destruct (score m (X s) (lengths s)) as [logL|e] eqn:Es; cbn [bind];
    [|discriminate].
  unfold getitem. destruct (X s) as [|row rest] eqn:EX; cbn [nth_error bind hd];
    [discriminate|].
  intros H. inversion H as [[Hq Hr]]. exists m, logL.
  split; [reflexivity|].
  split; [first [reflexivity | assumption]|].
  split; [first [reflexivity | assumption]|].
  split; [discriminate | reflexivity].
Qed.

(** X6: [SelectorBIC.select] raises nothing.  A model it returns was
    fitted by the trainer on the selector's observations with a state
    count of the range, and scored them; it returns [None] exactly when
    the observations have no row or no candidate of the range both fits
    and scores. *)
Theorem SelectorBIC_select_sound (s : ModelSelector) :
  exists r,
    SelectorBIC_select s = Ok r /\
    match r with
    | Some m =>
        exists n logL,
          min_n_components s <= n <= max_n_components s /\
          GaussianHMM_fit n (random_state s) (X s) (lengths s) = Ok m /\
          score m (X s) (lengths s) = Ok logL /\ X s <> []
    | None =>
        X s = [] \/
        forall n, min_n_components s <= n <= max_n_components s ->
                  bic_quality s n = None
    end.
Proof.
  rewrite SelectorBIC_select_choose.
  set (ns := range (min_n_components s) (max_n_components s + 1)).
  set (entries := fun n => match bic_try s n with Ok c => [c] | Raise _ => [] end).
  destruct (choose_sound (flat_map entries ns)) as (r & Hr & Hnil & Hin).
  exists r. split; [exact Hr|].
  assert (Hsome : flat_map entries ns <> [] ->
                  exists q n, In n ns /\ bic_try s n = Ok (q, r)).
  { intros Hne. destruct (Hin Hne) as [q Hq].
    apply in_flat_map in Hq. destruct Hq as (n & Hn & Hq). unfold entries in Hq.
    destruct (bic_try s n) as [c|e] eqn:E; [|destruct Hq].
    destruct Hq as [Hc|[]]. exists q, n. split; [exact Hn|].
    rewrite E, Hc. reflexivity. }
  destruct r as [m|].
  - destruct (flat_map entries ns) as [|c l] eqn:E.
    + specialize (Hnil eq_refl). discriminate.
    + destruct Hsome as (q & n & Hn & Ht); [discriminate|].
      apply range_In in Hn.
      apply bic_try_Ok_inv in Ht.
      destruct Ht as (m' & logL & Hm & Hf & Hs & HX & _).
      inversion Hm; subst m'. exists n, logL. auto.
  - destruct (flat_map entries ns) as [|c l] eqn:E.
    + destruct (X s) as [|row rest] eqn:EX; [left; reflexivity|].
      right. intros n Hn. apply range_In in Hn.
      pose proof (flat_map_nil_inv entries ns E n Hn) as Hent. unfold entries in Hent.
      assert (HX : X s <> []) by (rewrite EX; discriminate).
      pose proof (bic_try_quality s n HX) as Hq.
      destruct (bic_quality s n) as [[q m]|]; [|reflexivity].
      rewrite Hq in Hent. discriminate.
    + destruct Hsome as (q & n & _ & Ht); [discriminate|].
      apply bic_try_Ok_inv in Ht. destruct Ht as (m & _ & Hm & _). discriminate.
Qed.

Lemma cv_entries_inv (s : ModelSelector) (n : Z) q r :
  In (q, r) (cv_entries s n) ->
  exists q0 m, cv_quality s n = Some (q0, m) /\ r = Some m.
Proof.
  unfold cv_entries. destruct (cv_quality s n) as [[q0 m]|]; [|intros []].
  intros H. exists q0, m. split; [reflexivity|].
  destruct (len (sequences s) <? 3).
  - destruct H as [H|[H|[]]]; inversion H; reflexivity.
  - destruct H as [H|[]]; inversion H; reflexivity.
Qed.

Lemma cv_entries_nil (s : ModelSelector) (n : Z) :
  cv_entries s n = [] -> cv_quality s n = None.
Proof.
  unfold cv_entries. destruct (cv_quality s n) as [[q0 m]|]; [|reflexivity].
  destruct (len (sequences s) <? 3); discriminate.
Qed.

Lemma all_folds_Forall2 (s : ModelSelector) (n : Z) splits :
  forall results,
    all_folds s n splits = Some results ->
    Forall2 (fun split vm => fold_eval s n split = Some vm) splits results.
Proof.
  induction splits as [|sp r IH]; intros results H; cbn in H.
  - inversion H. constructor.
  - destruct (fold_eval s n sp) as [vm|] eqn:E; [|discriminate].
    destruct (all_folds s n r) as [l|]; [|discriminate].
    inversion H. constructor; [exact E | apply IH; reflexivity].
Qed.

Lemma Forall2_last {A B} (P : A -> B -> Prop) (l : list A) :
  forall l' a b, P a b -> Forall2 P l l' -> P (List.last l a) (List.last l' b).
Proof.
  induction l as [|x l IH]; intros l' a b Hab HF; inversion HF; subst.
  - exact Hab.
  - rewrite !last_cons_default. apply IH; assumption.
Qed.

Lemma last_map_snd {A B} (l : list (A * B)) (d : A * B) :
  List.last (map snd l) (snd d) = snd (List.last l d).
Proof.
  revert d. induction l as [|x l IH]; intros d; [reflexivity|].
  cbn [map]. rewrite !last_cons_default. apply IH.
Qed.

(** The model kept for a candidate: the fit on the selector's data below
    three sequences, the fit on the training part of the last fold
    otherwise. *)
Lemma cv_quality_model (s : ModelSelector) (n : Z) q m :
  cv_quality s n = Some (q, m) ->
  (len (sequences s) < 3 /\
   GaussianHMM_fit n (random_state s) (X s) (lengths s) = Ok m) \/
  (3 <= len (sequences s) /\
   exists sp sps X_train lengths_train,
     KFold_split (random_state s) (sequences s) = Ok (sp :: sps) /\
     combine_sequences (fst (List.last sps sp)) (sequences s)
     = Ok (X_train, lengths_train) /\
     GaussianHMM_fit n (random_state s) X_train lengths_train = Ok m).
Proof.
  unfold cv_quality. destruct (Z.ltb_spec (len (sequences s)) 3) as [Hlt|Hge].
  - intros H. left. split; [exact Hlt|]. unfold fit_and_score in H.
    destruct (GaussianHMM_fit n (random_state s) (X s) (lengths s)) as [m'|];
      [|discriminate].
    destruct (score m' (X s) (lengths s)); inversion H. reflexivity.
  - intros H. right. split; [exact Hge|].
    destruct (KFold_split (random_state s) (sequences s)) as [splits|] eqn:Ek;
      [|discriminate].
    destruct (all_folds s n splits) as [[|[v0 m0] rest]|] eqn:Ea; try discriminate.
    inversion H; subst q m. apply all_folds_Forall2 in Ea.
    inversion Ea as [|sp vm sps rest' H0 HF]; subst.
    pose proof (Forall2_last _ _ _ _ _ H0 HF) as Hlast. cbv beta in Hlast.
    change m0 with (snd (v0, m0)). rewrite last_map_snd.
    destruct (List.last rest (v0, m0)) as [v m] eqn:El.
    unfold fold_eval, fit_and_score in Hlast.
    destruct (combine_sequences (fst (List.last sps sp)) (sequences s))
      as [[Xtr ltr]|] eqn:Ec; [|discriminate].
    destruct (combine_sequences (snd (List.last sps sp)) (sequences s))
      as [[Xte lte]|]; [|discriminate].
    destruct (GaussianHMM_fit n (random_state s) Xtr ltr) as [m'|] eqn:Ef;
      [|discriminate].
    destruct (score m' Xte lte); inversion Hlast; subst.
    exists sp, sps, Xtr, ltr. auto.
Qed.

(** X7: [SelectorCV.select] raises nothing.  It returns [None] exactly
    when every candidate of the range fails.  A model it returns is the
    model kept for a candidate of the range that was evaluated without a
    failure: the fit on the selector's own observations for a word of
    fewer than three sequences, and otherwise the fit on the training part
    of the last fold of the split. *)
Theorem SelectorCV_select_sound (s : ModelSelector) :
  exists r,
    fst (SelectorCV_select s) = Ok r /\
    (r = None <->
     forall n, min_n_components s <= n <= max_n_components s ->
               cv_quality s n = None) /\
    forall m,
      r = Some m ->
      exists n q,
        min_n_components s <= n <= max_n_components s /\
        cv_quality s n = Some (q, m) /\
        ((len (sequences s) < 3 /\
          GaussianHMM_fit n (random_state s) (X s) (lengths s) = Ok m) \/
         (3 <= len (sequences s) /\
          exists sp sps X_train lengths_train,
            KFold_split (random_state s) (sequences s) = Ok (sp :: sps) /\
            combine_sequences (fst (List.last sps sp)) (sequences s)
            = Ok (X_train, lengths_train) /\
            GaussianHMM_fit n (random_state s) X_train lengths_train = Ok m)).
Proof.
  rewrite SelectorCV_select_eq. cbn [fst].
  set (ns := range (min_n_components s) (max_n_components s + 1)).
  destruct (choose_sound (flat_map (cv_entries s) ns)) as (r & Hr & Hnil & Hin).
  exists r. split; [exact Hr|].
  destruct (flat_map (cv_entries s) ns) as [|c l] eqn:E.
  - rewrite (Hnil eq_refl). split; [|intros m Hm; discriminate Hm].
    split; [|reflexivity]. intros _ n Hn. apply range_In in Hn.
    apply cv_entries_nil. apply (flat_map_nil_inv _ _ E n Hn).
  - destruct Hin as [q Hq]; [discriminate|]. rewrite <- E in Hq.
    apply in_flat_map in Hq. destruct Hq as (n & Hn & Hq).
    apply cv_entries_inv in Hq. destruct Hq as (q0 & m & Hqm & ->).
    apply range_In in Hn. split.
    + split; [intros Hm; discriminate Hm|].
      intros Hall. rewrite (Hall n Hn) in Hqm. discriminate Hqm.
    + intros m' Hm'. inversion Hm'; subst m'. exists n, q0.
      split; [exact Hn|]. split; [exact Hqm|].
      apply (cv_quality_model s n q0 m Hqm).
Qed.

(** *** Nothing to try *)

(** X8: with an empty range of candidates ([max_n_components] below
    [min_n_components]) [SelectorBIC.select] and [SelectorCV.select]
    return [None], and the object is as before. *)
Theorem select_empty_range (s : ModelSelector) :
  max_n_components s < min_n_components s ->
  select SelectorBIC s = (Ok None, s) /\ select SelectorCV s = (Ok None, s).
Proof.
  intros H. cbn [select]. split.
  - rewrite SelectorBIC_select_choose, (range_empty _ _ H). reflexivity.
  - rewrite SelectorCV_select_eq, (range_empty _ _ H). reflexivity.
Qed.

(** X9: for a word of fewer than three sequences [SelectorCV.select]
    leaves every field of the object as it was, [X] and [lengths]
    included. *)
Theorem SelectorCV_select_short_word_untouched (s : ModelSelector) :
  len (sequences s) < 3 -> snd (SelectorCV_select s) = s.
Proof.
  intros H. apply SelectorCV_select_frame. apply Z.ltb_lt. exact H.
Qed.

Lemma cv_loop_splitter_raises (s : ModelSelector) e (ns : list Z) :
  (len (sequences s) <? 3) = false ->
  KFold_split (random_state s) (sequences s) = Raise e ->
  forall f, self f = s -> self (snd (cv_loop s ns f)) = s.
Proof.
  intros Hge Hk. unfold cv_loop.
  induction ns as [|n ns IH]; intros f Hf; [exact Hf|].
  cbn [for_each]. unfold mbind, try_.
  rewrite cv_try_ge3 by (rewrite Hf; exact Hge). cbv zeta.
  rewrite Hf, Hk. cbn. apply IH. reflexivity.
Qed.

(** X10: when the splitter refuses to split a word of at least three
    sequences (as a splitter of more folds than the word has sequences
    does), [SelectorCV.select] returns [None] and leaves the object as it
    was: the refusal is caught like a failed fit, for every candidate. *)
Theorem SelectorCV_select_splitter_raises (s : ModelSelector) e :
  3 <= len (sequences s) ->
  KFold_split (random_state s) (sequences s) = Raise e ->
  SelectorCV_select s = (Ok None, s).
Proof.
  intros Hge Hk. rewrite SelectorCV_select_eq.
  assert (E : (len (sequences s) <? 3) = false) by (apply Z.ltb_ge; exact Hge).
  f_equal.
  - rewrite flat_map_all_nil; [reflexivity|].
    intros n. unfold cv_entries, cv_quality. rewrite E, Hk. reflexivity.
  - apply (cv_loop_splitter_raises s e _ E Hk). reflexivity.
Qed.

(** *** Ties and [nan] *)

(** Among tracked entries the candidate chosen comes first among those
    of greatest quality: every candidate before it is strictly worse. *)
Lemma choose_first {A} (quality : Z -> option (float * A)) entries (ns : list Z) :
  (forall n, In n ns -> tracks quality entries n) ->
  (exists n, In n ns /\ quality n <> None) ->
  exists ns1 n ns2 q m,
    ns = ns1 ++ n :: ns2 /\ quality n = Some (q, m) /\
    choose (flat_map entries ns) = Ok (Some m) /\
    forall n' q' m', In n' ns1 -> quality n' = Some (q', m') ->
                     (q' <? q)%float = true.
Proof.
  intros Ht (n0 & Hn0 & Hq0).
  destruct (quality n0) as [[q0 m0]|] eqn:E0; [|congruence].
  destruct (scores_In _ _ _ _ _ _ Ht Hn0 E0) as [Hin0 _].
  destruct (flat_map entries ns) as [|c l] eqn:Es; [destruct Hin0|].
  pose proof (scores_head _ _ _ _ _ Ht Es) as Hc.
  rewrite choose_cons.
  destruct (py_max_spec (fun x : float * option A => Ok (fst x)) fst c l
                        (fun _ _ => eq_refl) Hc)
    as (l1 & best & l2 & Heq & Hbest & Hnn & H1 & _).
  rewrite Hbest. cbn [bind]. rewrite <- Es in Heq.
  destruct (flat_map_split entries ns l1 best l2 Heq)
    as (ns1 & n & ns2 & pre & post & Hns & Hent & Hl1 & _).
  assert (Hn : In n ns) by (rewrite Hns; apply in_or_app; right; left; reflexivity).
  pose proof (Ht n Hn) as Hn'. unfold tracks in Hn'.
  destruct (quality n) as [[q m]|] eqn:Eq.
  - destruct Hn' as (_ & tail & Etail & Htail). rewrite Etail in Hent.
    destruct pre as [|c0 pre].
    + cbn in Hent. inversion Hent; subst best.
      exists ns1, n, ns2, q, m. repeat split; try assumption.
      intros n' q' m' Hn1 Hq'.
      assert (Hn1' : In n' ns) by (rewrite Hns; apply in_or_app; left; exact Hn1).
      pose proof (Ht n' Hn1') as Ht'. unfold tracks in Ht'. rewrite Hq' in Ht'.
      destruct Ht' as (Hnn' & tail' & Etail' & _).
      apply (H1 (q', Some m')); [|exact Hnn'].
      rewrite Hl1, app_nil_r. apply in_flat_map. exists n'. split; [exact Hn1|].
      rewrite Etail'. left. reflexivity.
    + cbn in Hent. inversion Hent as [[Hc0 Ht']].
      assert (Hb : In best tail) by (rewrite Ht'; apply in_or_app; right; left; reflexivity).
      apply Htail in Hb. unfold not_nan in Hnn. congruence.
  - rewrite Hn' in Hent. destruct pre; discriminate.
Qed.

(** X11: among the candidates of greatest BIC, [SelectorBIC.select]
    returns the model of the smallest state count: every smaller
    candidate that fits and scores has a strictly smaller BIC.  The
    observations have a row and the BIC values are numbers. *)
Theorem SelectorBIC_select_ties (s : ModelSelector) :
  X s <> [] ->
  (forall n q m, min_n_components s <= n <= max_n_components s ->
                 bic_quality s n = Some (q, m) -> not_nan q) ->
  (exists n, min_n_components s <= n <= max_n_components s /\
             bic_quality s n <> None) ->
  exists n q m,
    min_n_components s <= n <= max_n_components s /\
    bic_quality s n = Some (q, m) /\
    SelectorBIC_select s = Ok (Some m) /\
    forall n' q' m',
      min_n_components s <= n' < n ->
      bic_quality s n' = Some (q', m') -> (q' <? q)%float = true.
Proof.
  intros HX Hreal (n0 & Hn0 & Hq0). rewrite SelectorBIC_select_choose.
  set (ns := range (min_n_components s) (max_n_components s + 1)).
  set (entries := fun n => match bic_try s n with Ok c => [c] | Raise _ => [] end).
  assert (Ht : forall n, In n ns -> tracks (bic_quality s) entries n).
  { intros n Hn. apply range_In in Hn. unfold tracks, entries.
    pose proof (bic_try_quality s n HX) as Hq.
    destruct (bic_quality s n) as [[q m]|] eqn:E.
    - rewrite Hq. split; [eapply Hreal; eassumption|].
      exists []. split; [reflexivity | intros c []].
    - destruct Hq as [e ->]. reflexivity. }
  destruct (choose_first (bic_quality s) entries ns Ht)
    as (ns1 & n & ns2 & q & m & Hns & Hq & Hsel & Hlt).
  { exists n0. split; [apply range_In; exact Hn0 | exact Hq0]. }
  exists n, q, m.
  assert (Hn : In n ns) by (rewrite Hns; apply in_or_app; right; left; reflexivity).
  apply range_In in Hn. repeat split; try assumption; try lia.
  intros n' q' m' Hn' E'. apply (Hlt n' q' m'); [|exact E'].
  apply (range_before _ _ _ _ _ Hns). exact Hn'.
Qed.

(** X12: among the candidates of greatest quality, [SelectorCV.select]
    returns the model kept for the smallest state count: every smaller
    candidate that evaluates has a strictly smaller quality.  The
    qualities are numbers. *)
Theorem SelectorCV_select_ties (s : ModelSelector) :
  (forall n q m, min_n_components s <= n <= max_n_components s ->
                 cv_quality s n = Some (q, m) -> not_nan q) ->
  (exists n, min_n_components s <= n <= max_n_components s /\
             cv_quality s n <> None) ->
  exists n q m,
    min_n_components s <= n <= max_n_components s /\
    cv_quality s n = Some (q, m) /\
    fst (SelectorCV_select s) = Ok (Some m) /\
    forall n' q' m',
      min_n_components s <= n' < n ->
      cv_quality s n' = Some (q', m') -> (q' <? q)%float = true.
Proof.
  intros Hreal (n0 & Hn0 & Hq0). rewrite SelectorCV_select_eq. cbn [fst].
  set (ns := range (min_n_components s) (max_n_components s + 1)).
  assert (Ht : forall n, In n ns -> tracks (cv_quality s) (cv_entries s) n).
  { intros n Hn. apply range_In in Hn. apply cv_tracks.
    intros q m. apply Hreal. exact Hn. }
  destruct (choose_first (cv_quality s) (cv_entries s) ns Ht)
    as (ns1 & n & ns2 & q & m & Hns & Hq & Hsel & Hlt).
  { exists n0. split; [apply range_In; exact Hn0 | exact Hq0]. }
  exists n, q, m.
  assert (Hn : In n ns) by (rewrite Hns; apply in_or_app; right; left; reflexivity).
  apply range_In in Hn. repeat split; try assumption; try lia.
  intros n' q' m' Hn' E'. apply (Hlt n' q' m'); [|exact E'].
  apply (range_before _ _ _ _ _ Hns). exact Hn'.
Qed.

Lemma choose_nan_head {A} (q : float) (r : option A) l :
  is_nan q = true -> choose ((q, r) :: l) = Ok r.
Proof.
  intros Hq. rewrite choose_cons.
  rewrite (py_max_keep (fun x : float * option A => Ok (fst x)) (q, r) l q eq_refl);
    [reflexivity|].
  intros y _. exists (fst y). split; [reflexivity|].
  unfold gtb. apply nan_ltb. exact Hq.
Qed.

Lemma flat_map_nil_in {A B} (f : A -> list B) (l : list A) :
  (forall x, In x l -> f x = []) -> flat_map f l = [].
Proof.
  induction l as [|a l IH]; intros H; cbn; [reflexivity|].
  rewrite (H a (or_introl eq_refl)). apply IH. intros x Hx. apply H. right. exact Hx.
Qed.

(** When the first candidate with entries has a [nan] score at its head,
    that candidate is chosen. *)
Lemma choose_nan_first {A} (entries : Z -> list (float * option A))
      (a b n0 : Z) q (m : A) tail :
  a <= n0 <= b ->
  (forall n, a <= n < n0 -> entries n = []) ->
  entries n0 = (q, Some m) :: tail -> is_nan q = true ->
  choose (flat_map entries (range a (b + 1))) = Ok (Some m).
Proof.
  intros Hn0 Hbefore Hent Hq.
  rewrite (range_split a n0 (b + 1)) by lia.
  rewrite flat_map_app. cbn [flat_map].
  rewrite flat_map_nil_in, Hent.
  - cbn [app]. apply choose_nan_head. exact Hq.
  - intros n Hn. apply range_In_lt in Hn. apply Hbefore. exact Hn.
Qed.

(** X13: when the BIC of the first candidate that fits and scores is
    [nan], [SelectorBIC.select] returns that candidate's model whatever
    the later candidates score: no value is [>] a [nan]. *)
Theorem SelectorBIC_select_nan_first (s : ModelSelector) (n0 : Z) q m :
  X s <> [] ->
  min_n_components s <= n0 <= max_n_components s ->
  (forall n, min_n_components s <= n < n0 -> bic_quality s n = None) ->
  bic_quality s n0 = Some (q, m) -> is_nan q = true ->
  SelectorBIC_select s = Ok (Some m).
Proof.
  intros HX Hn0 Hbefore Hq Hnan. rewrite SelectorBIC_select_choose.
  apply (choose_nan_first _ _ _ n0 q m []); try assumption.
  - intros n Hn. pose proof (bic_try_quality s n HX) as Ht.
    rewrite (Hbefore n Hn) in Ht. destruct Ht as [e ->]. reflexivity.
  - pose proof (bic_try_quality s n0 HX) as Ht. rewrite Hq in Ht.
    rewrite Ht. reflexivity.
Qed.

(** X14: when the quality of the first candidate that evaluates is
    [nan] (as the mean of fold scores that include a [nan]),
    [SelectorCV.select] returns the model kept for that candidate whatever
    the later candidates score. *)
Theorem SelectorCV_select_nan_first (s : ModelSelector) (n0 : Z) q m :
  min_n_components s <= n0 <= max_n_components s ->
  (forall n, min_n_components s <= n < n0 -> cv_quality s n = None) ->
  cv_quality s n0 = Some (q, m) -> is_nan q = true ->
  fst (SelectorCV_select s) = Ok (Some m).
Proof.
  intros Hn0 Hbefore Hq Hnan. rewrite SelectorCV_select_eq. cbn [fst].
  apply (choose_nan_first _ _ _ n0 q m
           (if len (sequences s) <? 3 then [(np_mean [], Some m)] else []));
    try assumption.
  - intros n Hn. unfold cv_entries. rewrite (Hbefore n Hn). reflexivity.
  - unfold cv_entries. rewrite Hq. destruct (len (sequences s) <? 3); reflexivity.
Qed.

(** *** What the result depends on *)

(** X15: from three sequences on, [SelectorCV.select] never reads the
    observations and lengths the selector holds when it is called: two
    selectors that differ only in [X] and [lengths] return the same
    result. *)
Theorem SelectorCV_select_ignores_X (s1 s2 : ModelSelector) :
  3 <= len (sequences s1) ->
  same_but_X_lengths s1 s2 ->
  fst (SelectorCV_select s1) = fst (SelectorCV_select s2).
Proof.
  intros Hge (_ & _ & Hseq & _ & _ & Hmin & Hmax & Hrs & _).
  rewrite !SelectorCV_select_eq. cbn [fst]. rewrite Hmin, Hmax.
  f_equal. apply flat_map_ext_all. intros n. symmetry.
  apply cv_entries_ext; auto.
  rewrite Hseq. intros E. apply Z.ltb_lt in E. lia.
Qed.

(** *** Running [select] again *)

Lemma same_but_assign_eq (s1 s2 : ModelSelector) X' lengths' :
  same_but_X_lengths s1 s2 ->
  assign_X_lengths s1 X' lengths' = assign_X_lengths s2 X' lengths'.
Proof.
  intros (Hw & Hh & Hseq & Ht & Hc & Hmin & Hmax & Hrs & Hv).
  unfold assign_X_lengths.
  rewrite Hw, Hh, Hseq, Ht, Hc, Hmin, Hmax, Hrs, Hv. reflexivity.
Qed.

Lemma frames_alike_eq_self (s : ModelSelector) mv sc nss :
  frames_alike (mkFrame L s mv sc nss) (mkFrame L s mv sc nss).
Proof. split; [apply same_but_refl|]. repeat split. Qed.

Lemma settled_trans (a b a' b' a'' b'' : Frame) :
  settled a b a' b' -> settled a' b' a'' b'' -> settled a b a'' b''.
Proof.
  unfold settled. intros [H|[H1 H2]] [H'|[H1' H2']].
  - left. exact H'.
  - left. congruence.
  - left. exact H'.
  - right. split; congruence.
Qed.

Lemma cv_fold_alike (n : Z) split (f1 f2 : Frame) :
  frames_alike f1 f2 ->
  fst (cv_fold n split f1) = fst (cv_fold n split f2) /\
  frames_alike (snd (cv_fold n split f1)) (snd (cv_fold n split f2)) /\
  settled f1 f2 (snd (cv_fold n split f1)) (snd (cv_fold n split f2)).
Proof.
  intros (Hs & Hm & Hc & Hn). rewrite !cv_fold_run.
  pose proof Hs as (_ & _ & Hseq & _ & _ & _ & _ & Hrs & _).
  rewrite Hseq, Hrs, <- Hm, <- Hc, <- Hn.
  destruct (combine_sequences (fst split) (sequences (self f1))) as [[Xtr ltr]|e].
  - cbv zeta. rewrite <- (same_but_assign_eq (self f1) (self f2) Xtr ltr Hs).
    assert (Hsame : forall (r : result unit) mv sc nss,
               let g := mkFrame L (assign_X_lengths (self f1) Xtr ltr) mv sc nss in
               r = r /\ frames_alike g g /\ settled f1 f2 g g).
    { intros r mv sc nss. cbv zeta. split; [reflexivity|].
      split; [apply frames_alike_eq_self | left; reflexivity]. }
    destruct (combine_sequences (snd split) (sequences (self f1))) as [[Xte lte]|e];
      [|apply Hsame].
    destruct (GaussianHMM_fit n (random_state (self f1)) Xtr ltr) as [m|e];
      [|apply Hsame].
    destruct (score m Xte lte); apply Hsame.
  - cbn. split; [reflexivity|]. split.
    + split; [exact Hs|]. repeat split; congruence.
    + right. split; reflexivity.
Qed.

Lemma fold_loop_alike (n : Z) (splits : list (list nat * list nat)) :
  forall f1 f2,
    frames_alike f1 f2 ->
    fst (for_each splits (cv_fold n) f1) = fst (for_each splits (cv_fold n) f2) /\
    frames_alike (snd (for_each splits (cv_fold n) f1))
                 (snd (for_each splits (cv_fold n) f2)) /\
    settled f1 f2 (snd (for_each splits (cv_fold n) f1))
            (snd (for_each splits (cv_fold n) f2)).
Proof.
  induction splits as [|sp r IH]; intros f1 f2 H.
  - cbn. split; [reflexivity|]. split; [exact H|]. right. split; reflexivity.
  - cbn [for_each]. unfold mbind.
    destruct (cv_fold_alike n sp f1 f2 H) as (E & Ha & Hst).
    destruct (cv_fold n sp f1) as [r1 g1], (cv_fold n sp f2) as [r2 g2].
    cbn [fst snd] in *. subst r2. destruct r1 as [[]|e].
    + destruct (IH g1 g2 Ha) as (E' & Ha' & Hst').
      split; [exact E'|]. split; [exact Ha'|].
      eapply settled_trans; eassumption.
    + cbn. auto.
Qed.

Lemma cv_try_alike sm (n : Z) (f1 f2 : Frame) :
  frames_alike f1 f2 ->
  (len (sequences (self f1)) <? 3) = false ->
  fst (try_ (cv_try sm n) (fun _ => ret tt) f1)
  = fst (try_ (cv_try sm n) (fun _ => ret tt) f2) /\
  frames_alike (snd (try_ (cv_try sm n) (fun _ => ret tt) f1))
               (snd (try_ (cv_try sm n) (fun _ => ret tt) f2)) /\
  settled f1 f2 (snd (try_ (cv_try sm n) (fun _ => ret tt) f1))
          (snd (try_ (cv_try sm n) (fun _ => ret tt) f2)).
Proof.
  intros H E. pose proof H as (Hs & Hm & Hc & Hn).
  pose proof Hs as (_ & _ & Hseq & _).
  unfold try_. rewrite !cv_try_ge3 by (rewrite ?Hseq; exact E). cbv zeta.
  rewrite Hseq.
  destruct (sm (sequences (self f1))) as [splits|e].
  - set (g1 := mkFrame L (self f1) (model f1) [] (n_state_scores f1)).
    set (g2 := mkFrame L (self f2) (model f2) [] (n_state_scores f2)).
    assert (Hg : frames_alike g1 g2).
    { split; [exact Hs|]. cbn. repeat split; assumption. }
    destruct (fold_loop_alike n splits g1 g2 Hg) as (E' & Ha & Hst).
    destruct (for_each splits (cv_fold n) g1) as [r1 h1],
             (for_each splits (cv_fold n) g2) as [r2 h2].
    cbn [fst snd] in *. subst r2.
    assert (Hst' : settled f1 f2 h1 h2) by exact Hst.
    destruct Ha as (Hs' & Hm' & Hc' & Hn').
    destruct r1 as [[]|e].
    + rewrite <- Hm'. destruct (model h1) as [m|] eqn:Em; cbn.
      * split; [reflexivity|]. split; [|exact Hst'].
        split; [exact Hs'|]. cbn. rewrite Hc', Hn'. repeat split; congruence.
      * split; [reflexivity|]. split; [|exact Hst'].
        split; [exact Hs'|]. repeat split; congruence.
    + cbn. split; [reflexivity|]. split; [|exact Hst'].
      split; [exact Hs'|]. repeat split; congruence.
  - cbn. split; [reflexivity|]. split.
    + split; [exact Hs|]. cbn. repeat split; assumption.
    + right. split; reflexivity.
Qed.

Lemma cv_loop_alike (s : ModelSelector) (ns : list Z) :
  (len (sequences s) <? 3) = false ->
  forall f1 f2,
    cv_invariant s f1 -> frames_alike f1 f2 ->
    settled f1 f2 (snd (cv_loop s ns f1)) (snd (cv_loop s ns f2)).
Proof.
  intros E. unfold cv_loop.
  induction ns as [|n ns IH]; intros f1 f2 Hinv H.
  - cbn. right. split; reflexivity.
  - cbn [for_each]. unfold mbind.
    assert (E1 : (len (sequences (self f1)) <? 3) = false).
    { destruct Hinv as ((_ & _ & Hseq & _) & _). rewrite Hseq. exact E. }
    destruct (cv_try_alike (KFold_split (random_state s)) n f1 f2 H E1)
      as (Er & Ha & Hst).
    destruct (cv_try_step s n f1 Hinv) as (Hok & Hinv' & _).
    destruct (try_ (cv_try (KFold_split (random_state s)) n) (fun _ => ret tt) f1)
      as [r1 g1],
      (try_ (cv_try (KFold_split (random_state s)) n) (fun _ => ret tt) f2)
      as [r2 g2].
    cbn [fst snd] in *. subst r1 r2.
    eapply settled_trans; [exact Hst | apply IH; assumption].
Qed.

(** X16: [SelectorCV.select] changes the object at most once: calling it
    again on the object it has left behind leaves that object as it
    is. *)
Theorem SelectorCV_select_twice (s : ModelSelector) :
  snd (SelectorCV_select (snd (SelectorCV_select s)))
  = snd (SelectorCV_select s).
Proof.
  destruct (SelectorCV_select_frame s) as [Hs Hlt].
  destruct (len (sequences s) <? 3) eqn:E.
  - rewrite (Hlt eq_refl). apply (Hlt eq_refl).
  - set (s' := snd (SelectorCV_select s)) in *.
    pose proof Hs as (_ & _ & Hseq & _ & _ & Hmin & Hmax & Hrs & _).
    rewrite (SelectorCV_select_eq s'). cbn [snd].
    assert (Hs' : s' = self (snd (cv_loop s (range (min_n_components s)
                                                   (max_n_components s + 1))
                                          (mkFrame L s None [] [])))).
    { unfold s'. rewrite SelectorCV_select_eq. reflexivity. }
    rewrite Hmin, Hmax, Hrs.
    pose proof (cv_loop_alike s (range (min_n_components s) (max_n_components s + 1))
                              E (mkFrame L s None [] []) (mkFrame L s' None [] [])
                              (cv_invariant_init s None [] [] eq_refl)) as Hst.
    destruct Hst as [H|[H1 H2]].
    + split; [exact Hs|]. repeat split.
    + unfold cv_loop in H, Hs'. rewrite <- H. symmetry. exact Hs'.
    + unfold cv_loop in H2. exact H2.
Qed.

End Facts.
End SelectorMore.

(* ================================================================== *)
(** ** The further theorems on the sample data *)

Module MoreInstances.
Import Py Ext PyFloat Recognizer Selectors Sample Sample2 Views.
Import PyFloatFacts PyFacts RecognizerFacts SelectorFacts Instances.
Import MoreFacts RecognizerMore SelectorMore.

(** With equal scores everywhere the smallest state count wins. *)
Example sample_bic_tie :
  @SelectorBIC_select flat sample4 = Ok (Some (2, 4%nat)).
Proof. vm_compute. reflexivity. Qed.

Example sample_cv_tie :
  fst (@SelectorCV_select flat sample4) = Ok (Some (2, 3%nat)).
Proof. vm_compute. reflexivity. Qed.

(** A second call leaves the object of the first call alone. *)
Example sample_select_twice :
  snd (@SelectorCV_select stub (snd (@SelectorCV_select stub sample4)))
  = assign_X_lengths sample4 (frame 1 ++ frame 2 ++ frame 4) [1; 1; 1]%nat.
Proof. vm_compute. reflexivity. Qed.

Lemma failing_table_wf : dict_wf failing_table.
Proof.
  unfold dict_wf, failing_table. cbn.
  repeat constructor; cbn; intuition discriminate.
Defined.

Lemma noisy_table_wf : dict_wf noisy_table.
Proof.
  unfold dict_wf, noisy_table. cbn.
  repeat constructor; cbn; intuition discriminate.
Defined.

Lemma recognize_guess_in_table_witness :
  @recognize stub table items
  = Ok ([[("A"%string, 1%float); ("B"%string, neg_infinity); ("C"%string, 1%float)];
         [("A"%string, 2%float); ("B"%string, neg_infinity); ("C"%string, 2%float)]],
        ["A"%string; "A"%string]) /\
  forall g, In g ["A"%string; "A"%string] -> In g (dict_keys table).
Proof.
  assert (H : @recognize stub table items
              = Ok ([[("A"%string, 1%float); ("B"%string, neg_infinity);
                      ("C"%string, 1%float)];
                     [("A"%string, 2%float); ("B"%string, neg_infinity);
                      ("C"%string, 2%float)]],
                    ["A"%string; "A"%string]))
    by (vm_compute; reflexivity).
  split; [exact H|].
  apply (@recognize_guess_in_table stub table items _ _ H).
Defined.

Lemma recognize_all_fail_first_witness :
  dict_wf failing_table /\
  @recognize stub failing_table items
  = Ok ([[("B"%string, neg_infinity); ("D"%string, neg_infinity)];
         [("B"%string, neg_infinity); ("D"%string, neg_infinity)]],
        ["B"%string; "B"%string]) /\
  nth_error ["B"%string; "B"%string] 1 = Some "B"%string.
Proof.
  assert (H : @recognize stub failing_table items
              = Ok ([[("B"%string, neg_infinity); ("D"%string, neg_infinity)];
                     [("B"%string, neg_infinity); ("D"%string, neg_infinity)]],
                    ["B"%string; "B"%string]))
    by (vm_compute; reflexivity).
  split; [exact failing_table_wf|]. split; [exact H|].
  refine (proj1 (@recognize_all_fail_first stub "B"%string (5, 0%nat)
                   [("D"%string, (5, 1%nat))] items _ _ 1%nat
                   (frame 1 ++ frame 2, [2%nat]) failing_table_wf H eq_refl _)).
  intros w m [Hin|[Hin|[]]]; inversion Hin; subst; eexists; reflexivity.
Defined.

Lemma recognize_nan_first_witness :
  dict_wf noisy_table /\
  @recognize noisy noisy_table items
  = Ok ([[("A"%string, nan); ("B"%string, 5%float)];
         [("A"%string, nan); ("B"%string, 5%float)]],
        ["A"%string; "A"%string]) /\
  nth_error ["A"%string; "A"%string] 0 = Some "A"%string.
Proof.
  assert (H : @recognize noisy noisy_table items
              = Ok ([[("A"%string, nan); ("B"%string, 5%float)];
                     [("A"%string, nan); ("B"%string, 5%float)]],
                    ["A"%string; "A"%string]))
    by (vm_compute; reflexivity).
  split; [exact noisy_table_wf|]. split; [exact H|].
  exact (@recognize_nan_first noisy "A"%string (2, 0%nat)
           [("B"%string, (5, 0%nat))] items _ _ 0%nat (frame 1, [1%nat]) nan
           noisy_table_wf H eq_refl eq_refl eq_refl).
Defined.

Lemma select_empty_range_witness :
  max_n_components empty_range < min_n_components empty_range /\
  @select stub SelectorBIC empty_range = (Ok None, empty_range) /\
  @select stub SelectorCV empty_range = (Ok None, empty_range).
Proof.
  assert (H : max_n_components empty_range < min_n_components empty_range)
    by reflexivity.
  split; [exact H|]. exact (@select_empty_range stub empty_range H).
Defined.

Lemma SelectorCV_select_short_word_untouched_witness :
  len (sequences sample2) < 3 /\
  snd (@SelectorCV_select stub sample2) = sample2.
Proof.
  assert (H : len (sequences sample2) < 3) by reflexivity.
  split; [exact H|]. exact (@SelectorCV_select_short_word_untouched stub sample2 H).
Defined.

Lemma SelectorCV_select_splitter_raises_witness :
  3 <= len (sequences sample4) /\
  @KFold_split stub5 (random_state sample4) (sequences sample4) = Raise ValueError /\
  @SelectorCV_select stub5 sample4 = (Ok None, sample4).
Proof.
  assert (H : 3 <= len (sequences sample4)) by (vm_compute; discriminate).
  assert (Hk : @KFold_split stub5 (random_state sample4) (sequences sample4)
               = Raise ValueError) by reflexivity.
  split; [exact H|]. split; [exact Hk|].
  exact (@SelectorCV_select_splitter_raises stub5 sample4 ValueError H Hk).
Defined.

Lemma flat_bic_real :
  forall n q m, min_n_components sample4 <= n <= max_n_components sample4 ->
                @bic_quality flat sample4 n = Some (q, m) -> not_nan q.
Proof.
  intros n q m Hn H. apply sample_range in Hn.
  destruct Hn as [ -> | [ -> | [ -> | [ -> | -> ] ] ] ];
    vm_compute in H; inversion H; reflexivity.
Defined.

Lemma flat_cv_real :
  forall n q m, min_n_components sample4 <= n <= max_n_components sample4 ->
                @cv_quality flat sample4 n = Some (q, m) -> not_nan q.
Proof.
  intros n q m Hn H. apply sample_range in Hn.
  destruct Hn as [ -> | [ -> | [ -> | [ -> | -> ] ] ] ];
    vm_compute in H; inversion H; reflexivity.
Defined.

Lemma SelectorBIC_select_ties_witness :
  X sample4 <> [] /\
  (exists n, 2 <= n <= 6 /\ @bic_quality flat sample4 n <> None) /\
  exists n q m,
    2 <= n <= 6 /\
    @bic_quality flat sample4 n = Some (q, m) /\
    @SelectorBIC_select flat sample4 = Ok (Some m) /\
    forall n' q' m',
      2 <= n' < n ->
      @bic_quality flat sample4 n' = Some (q', m') -> (q' <? q)%float = true.
Proof.
  assert (HX : X sample4 <> []) by discriminate.
  assert (Hex : exists n, 2 <= n <= 6 /\ @bic_quality flat sample4 n <> None).
  { exists 2. split; [lia | vm_compute; discriminate]. }
  split; [exact HX|]. split; [exact Hex|].
  exact (@SelectorBIC_select_ties flat sample4 HX flat_bic_real Hex).
Defined.

Lemma SelectorCV_select_ties_witness :
  (exists n, 2 <= n <= 6 /\ @cv_quality flat sample4 n <> None) /\
  exists n q m,
    2 <= n <= 6 /\
    @cv_quality flat sample4 n = Some (q, m) /\
    fst (@SelectorCV_select flat sample4) = Ok (Some m) /\
    forall n' q' m',
      2 <= n' < n ->
      @cv_quality flat sample4 n' = Some (q', m') -> (q' <? q)%float = true.
Proof.
  assert (Hex : exists n, 2 <= n <= 6 /\ @cv_quality flat sample4 n <> None).
  { exists 2. split; [lia | vm_compute; discriminate]. }
  split; [exact Hex|].
  exact (@SelectorCV_select_ties flat sample4 flat_cv_real Hex).
Defined.

Lemma SelectorBIC_select_nan_first_witness :
  @bic_quality noisy sample4 2 = Some (nan, (2, 4%nat)) /\
  @bic_quality noisy sample4 3 = Some (74%float, (3, 4%nat)) /\
  @SelectorBIC_select noisy sample4 = Ok (Some (2, 4%nat)).
Proof.
  assert (HX : X sample4 <> []) by discriminate.
  assert (Hq : @bic_quality noisy sample4 2 = Some (nan, (2, 4%nat)))
    by (vm_compute; reflexivity).
  split; [exact Hq|]. split; [vm_compute; reflexivity|].
  refine (@SelectorBIC_select_nan_first noisy sample4 2 nan (2, 4%nat) HX _ _ Hq eq_refl).
  - cbn. lia.
  - intros n Hn. cbn in Hn. lia.
Defined.

Lemma SelectorCV_select_nan_first_witness :
  @cv_quality noisy sample4 2 = Some (nan, (2, 3%nat)) /\
  @cv_quality noisy sample4 3 = Some (3%float, (3, 3%nat)) /\
  fst (@SelectorCV_select noisy sample4) = Ok (Some (2, 3%nat)).
Proof.
  assert (Hq : @cv_quality noisy sample4 2 = Some (nan, (2, 3%nat)))
    by (vm_compute; reflexivity).
  split; [exact Hq|]. split; [vm_compute; reflexivity|].
  refine (@SelectorCV_select_nan_first noisy sample4 2 nan (2, 3%nat) _ _ Hq eq_refl).
  - cbn. lia.
  - intros n Hn. cbn in Hn. lia.
Defined.

Lemma SelectorCV_select_ignores_X_witness :
  3 <= len (sequences sample4) /\
  same_but_X_lengths sample4 sample4_other_X /\
  X sample4_other_X <> X sample4 /\
  fst (@SelectorCV_select stub sample4) = fst (@SelectorCV_select stub sample4_other_X).
Proof.
  assert (H : 3 <= len (sequences sample4)) by (vm_compute; discriminate).
  assert (Hs : same_but_X_lengths sample4 sample4_other_X)
    by (unfold same_but_X_lengths; repeat split).
  split; [exact H|]. split; [exact Hs|]. split.
  - intros E. apply (f_equal (@List.length _)) in E. vm_compute in E. discriminate.
  - exact (@SelectorCV_select_ignores_X stub sample4 sample4_other_X H Hs).
Defined.

End MoreInstances.
